(** * Raycasting game core: world grid, player controller, renderer

    A shallow embedding of [game/settings.py], [game/world.py],
    [game/player.py] and [game/renderer.py], followed by the properties
    stated about them.

    Numbers.  Python [int] values (health, ammo, points, tile codes, grid
    indices, the ray's accumulated distance) are [Z].  Python floats
    (coordinates, time deltas, movement components, the heading, the
    renderer's shading and projection) are binary64 values ([PrimFloat]):
    every sum, product and quotient is rounded as the processor rounds it,
    and can be an infinity or a nan.  An [int] that meets a float in an
    operation is converted first, as Python does.  The one place where a
    float is read as an exact rational [Q] is the floor division by the
    tile size at the entry of [World.is_wall]: [x // 64] is the floor of
    the exact quotient for every finite [x], and [int()] of the nan it
    gives for a non-finite [x] raises.

    Exceptions.  A list index out of range raises [IndexError] in Python,
    [int()] of a non-finite float raises, and so do the functions of
    [math] outside their domain; the embedding returns [None] there.

    Loops.  A [for] loop over a list is a structural recursion.  A [while]
    loop takes a [fuel] argument, the number of iterations it is allowed.
    The loops of [Player.rotate] cannot raise and answer [None] when the
    fuel runs out with the loop condition still true.  The ray march can
    raise as well, so its outcome keeps the three cases apart ([Run]).
    That a loop terminates is then the statement that some amount of fuel
    makes it end otherwise than by running out of fuel. *)

From Stdlib Require Import ZArith QArith Qround Floats List Bool String Lia Lqa.
Import ListNotations.

Open Scope Z_scope.

(** ** A small error monad for code that may raise *)

Definition bind {A B : Type} (m : option A) (k : A -> option B) : option B :=
  match m with
  | Some a => k a
  | None => None
  end.

Notation "x <- m ;; k" := (bind m (fun x => k))
  (at level 61, m at next level, right associativity).

(** ** The outcome of code that loops and may raise *)

Inductive Run (A : Type) : Type :=
| Done (a : A)
| Raised
| Unfinished.

Arguments Done {A} a.
Arguments Raised {A}.
Arguments Unfinished {A}.

(** ** Python's [math] module

    [math.cos], [math.sin] and [math.sqrt] call the C library and check
    the result (math_1 in CPython's mathmodule.c): a nan returned for an
    argument that is not a nan, or an infinity returned for a finite
    argument, raises [ValueError].  So [math.cos(inf)] raises (the library
    answers nan), and [math.cos(nan)] is nan. *)

Module Math.

Definition call (f : float -> float) (x : float) : option float :=
  let r := f x in
  if is_nan r && negb (is_nan x) then None
  else if is_infinity r && is_finite x then None
  else Some r.

(** [math.sqrt]: the C library's square root is the correctly rounded
    one of binary64. *)
Definition sqrt (x : float) : option float := call PrimFloat.sqrt x.

End Math.

(** ** game/settings.py *)

Module Settings.

Definition Color : Type := (Z * Z * Z)%type.

Definition SCREEN_WIDTH : Z := 1024.
Definition SCREEN_HEIGHT : Z := 768.
Definition FPS : Z := 60.

Definition PLAYER_SPEED : float := 5.

Definition FOV : Z := 60.
Definition RENDER_DISTANCE : Z := 20.
Definition RAY_COUNT : Z := SCREEN_WIDTH / 2.

Definition GRAY : Color := (128, 128, 128).
Definition DARK_GRAY : Color := (64, 64, 64).

Definition TILE_SIZE : Z := 64.
Definition MAP_WIDTH : Z := 20.
Definition MAP_HEIGHT : Z := 15.

Definition PLAYER_START_X : Z := 3 * TILE_SIZE.
Definition PLAYER_START_Y : Z := 3 * TILE_SIZE.
Definition PLAYER_START_HEALTH : Z := 100.
Definition PLAYER_MAX_HEALTH : Z := 100.

Definition POINTS_PER_KILL : Z := 50.

End Settings.

Import Settings.

(** ** game/world.py *)

Module World.

(** Actors are placeholders in the source: no zombie or bullet class exists
    yet.  The world only reads [health] of a zombie and [should_remove] of
    a bullet; [state] stands for whatever else an actor will carry. *)
Record Zombie : Type := mkZombie {
  z_health : Z;
  z_state : Z
}.

Record Bullet : Type := mkBullet {
  should_remove : bool;
  b_state : Z
}.

Record t : Type := mk {
  map_data : list (list Z);
  zombies : list Zombie;
  bullets : list Bullet;
  wave : Z;
  zombies_remaining : Z;
  zombies_killed : Z
}.

(** The map built by [World.__init__]: 0 = empty space, 1 = wall. *)
Definition init_map : list (list Z) :=
  [ [1;1;1;1;1;1;1;1;1;1;1;1;1;1;1;1;1;1;1;1];
    [1;0;0;0;0;0;0;0;0;1;1;0;0;0;0;0;0;0;0;1];
    [1;0;0;0;0;0;0;0;0;1;1;0;0;0;0;0;0;0;0;1];
    [1;0;0;0;0;0;0;0;0;0;0;0;0;0;0;0;0;0;0;1];
    [1;0;0;0;0;0;0;0;0;0;0;0;0;0;0;0;0;0;0;1];
    [1;0;0;0;1;1;1;0;0;0;0;0;0;1;1;1;0;0;0;1];
    [1;0;0;0;1;0;0;0;0;0;0;0;0;0;0;1;0;0;0;1];
    [1;0;0;0;1;0;0;0;0;0;0;0;0;0;0;1;0;0;0;1];
    [1;0;0;0;0;0;0;0;0;0;0;0;0;0;0;0;0;0;0;1];
    [1;0;0;0;0;0;0;0;0;0;0;0;0;0;0;0;0;0;0;1];
    [1;0;0;0;0;0;0;1;1;1;1;1;1;0;0;0;0;0;0;1];
    [1;0;0;0;0;0;0;0;0;0;0;0;0;0;0;0;0;0;0;1];
    [1;0;0;0;0;0;0;0;0;0;0;0;0;0;0;0;0;0;0;1];
    [1;0;0;0;0;0;0;0;0;0;0;0;0;0;0;0;0;0;0;1];
    [1;1;1;1;1;1;1;1;1;1;1;1;1;1;1;1;1;1;1;1] ].

(** [World.__init__] *)
Definition init : t :=
  {| map_data := init_map;
     zombies := [];
     bullets := [];
     wave := 1;
     zombies_remaining := 0;
     zombies_killed := 0 |}.

(** [len(l)] as a Python int. *)
Definition len {A : Type} (l : list A) : Z := Z.of_nat (List.length l).

(** [int(c // TILE_SIZE)]: floor division of a coordinate by the tile
    size, on the exact value of the coordinate. *)
Definition grid_index (c : Q) : Z := Qfloor (c / inject_Z TILE_SIZE).

(** The exact value of a binary64 number; [None] for nan and the
    infinities. *)
Definition exact (f : float) : option Q :=
  match Prim2SF f with
  | S754_zero _ => Some 0%Q
  | S754_finite s m e =>
      let n := if s then Z.neg m else Z.pos m in
      Some (if 0 <=? e then inject_Z (n * 2 ^ e)
            else (n # Pos.pow 2 (Z.to_pos (- e)))%Q)
  | S754_infinity _ => None
  | S754_nan => None
  end.

(** [int(c // TILE_SIZE)] on a float [c]: Python's floor division of a
    finite float by 64 is the floor of the exact quotient; of an infinity
    or a nan it is nan, and [int(nan)] raises [ValueError]. *)
Definition grid_index_at (c : float) : option Z :=
  q <- exact c ;; Some (grid_index q).

(** [self.map_data[grid_y][grid_x]] for non-negative indices; [None] is
    Python's [IndexError]. *)
Definition tile (w : t) (grid_x grid_y : Z) : option Z :=
  row <- nth_error (map_data w) (Z.to_nat grid_y) ;;
  nth_error row (Z.to_nat grid_x).

(** The bounds test shared by [is_wall] and [get_wall_at], with Python's
    left-to-right short-circuit [or]: [self.map_data[0]] is only read once
    [grid_x < 0] has failed.  [Some true] = out of bounds. *)
Definition out_of_bounds (w : t) (grid_x grid_y : Z) : option bool :=
  if grid_x <? 0 then Some true else
  row0 <- nth_error (map_data w) 0 ;;
  if grid_x >=? len row0 then Some true else
  if grid_y <? 0 then Some true else
  if grid_y >=? len (map_data w) then Some true else
  Some false.

(** [World.is_wall], on the exact values of the coordinates: Python
    ints, or finite floats. *)
Definition is_wall (w : t) (x y : Q) : option bool :=
  let grid_x := grid_index x in
  let grid_y := grid_index y in
  oob <- out_of_bounds w grid_x grid_y ;;
  if oob then Some true
  else code <- tile w grid_x grid_y ;; Some (code =? 1).

(** [World.is_wall] called with floats, as the player and the renderer
    call it: the two conversions to grid indices raise on a coordinate
    that is not finite. *)
Definition is_wall_at (w : t) (x y : float) : option bool :=
  qx <- exact x ;;
  qy <- exact y ;;
  is_wall w qx qy.

(** [World.get_wall_at] *)
Definition get_wall_at (w : t) (grid_x grid_y : Z) : option Z :=
  oob <- out_of_bounds w grid_x grid_y ;;
  if oob then Some 1
  else tile w grid_x grid_y.

(** [World._start_next_wave] *)
Definition _start_next_wave (w : t) : t :=
  let wave' := wave w + 1 in
  {| map_data := map_data w;
     zombies := zombies w;
     bullets := bullets w;
     wave := wave';
     zombies_remaining := wave' * 6;
     zombies_killed := zombies_killed w |}.

End World.

(** ** game/player.py *)

Module Player.

Record t : Type := mk {
  x : float;
  y : float;
  angle : float;
  health : Z;
  max_health : Z;
  points : Z;
  current_weapon : string;
  ammo : Z;
  max_ammo : Z;
  speed : float
}.

(** [Player.__init__] *)
Definition init (x0 y0 : float) : t :=
  {| x := x0; y := y0; angle := 0%float;
     health := PLAYER_START_HEALTH; max_health := PLAYER_MAX_HEALTH;
     points := 500;
     current_weapon := "M1911"; ammo := 8; max_ammo := 8;
     speed := PLAYER_SPEED |}.

Definition set_x (p : t) (v : float) : t :=
  mk v (y p) (angle p) (health p) (max_health p) (points p)
     (current_weapon p) (ammo p) (max_ammo p) (speed p).

Definition set_y (p : t) (v : float) : t :=
  mk (x p) v (angle p) (health p) (max_health p) (points p)
     (current_weapon p) (ammo p) (max_ammo p) (speed p).

Definition set_angle (p : t) (v : float) : t :=
  mk (x p) (y p) v (health p) (max_health p) (points p)
     (current_weapon p) (ammo p) (max_ammo p) (speed p).

Definition set_health (p : t) (v : Z) : t :=
  mk (x p) (y p) (angle p) v (max_health p) (points p)
     (current_weapon p) (ammo p) (max_ammo p) (speed p).

Definition set_points (p : t) (v : Z) : t :=
  mk (x p) (y p) (angle p) (health p) (max_health p) v
     (current_weapon p) (ammo p) (max_ammo p) (speed p).

Definition set_ammo (p : t) (v : Z) : t :=
  mk (x p) (y p) (angle p) (health p) (max_health p) (points p)
     (current_weapon p) v (max_ammo p) (speed p).

(** [v != 0] on a float: true of a nan. *)
Definition nonzero (v : float) : bool := negb (v =? 0)%float.

(** [TILE_SIZE] where it meets a float. *)
Definition tile_size : float := 64.

(** [Player.update]: [None] only when [world.is_wall] raises. *)
Definition update (p : t) (dt move_x move_y : float) (world : World.t) : option t :=
  if nonzero move_x || nonzero move_y then
    let new_x := (x p + move_x * speed p * dt * tile_size)%float in
    let new_y := (y p + move_y * speed p * dt * tile_size)%float in
    blocked_x <- World.is_wall_at world new_x (y p) ;;
    let p1 := if negb blocked_x then set_x p new_x else p in
    blocked_y <- World.is_wall_at world (x p1) new_y ;;
    Some (if negb blocked_y then set_y p1 new_y else p1)
  else Some p.

(** [math.pi] and [2 * math.pi] as binary64 values. *)
Definition math_pi : float := 0x1.921fb54442d18p+1%float.
Definition two_pi : float := (2 * math_pi)%float.

(** [while self.angle < 0: self.angle += 2 * math.pi].  The loop has no
    bound of its own: [fuel] counts the iterations allowed, [None] means
    the loop was still running when they were used up. *)
Fixpoint wrap_negative (fuel : nat) (a : float) : option float :=
  if (a <? 0)%float then
    match fuel with
    | O => None
    | S fuel' => wrap_negative fuel' (a + two_pi)%float
    end
  else Some a.

(** [while self.angle >= 2 * math.pi: self.angle -= 2 * math.pi] *)
Fixpoint wrap_full_turn (fuel : nat) (a : float) : option float :=
  if (two_pi <=? a)%float then
    match fuel with
    | O => None
    | S fuel' => wrap_full_turn fuel' (a - two_pi)%float
    end
  else Some a.

(** [Player.rotate], with [fuel] iterations allowed to each loop. *)
Definition rotate (fuel : nat) (p : t) (angle_delta : float) : option t :=
  a1 <- wrap_negative fuel (angle p + angle_delta)%float ;;
  a2 <- wrap_full_turn fuel a1 ;;
  Some (set_angle p a2).

(** [Player.shoot]: the new state and the returned flag. *)
Definition shoot (p : t) : t * bool :=
  if ammo p >? 0 then (set_ammo p (ammo p - 1), true)
  else (p, false).

(** [Player.reload] *)
Definition reload (p : t) : t :=
  if ammo p <? max_ammo p then set_ammo p (max_ammo p) else p.

(** [Player.take_damage]: the new state and the returned flag. *)
Definition take_damage (p : t) (damage : Z) : t * bool :=
  let p1 := set_health p (health p - damage) in
  if health p1 <=? 0 then (set_health p1 0, true)
  else (p1, false).

(** [Player.add_points] *)
Definition add_points (p : t) (n : Z) : t := set_points p (points p + n).

(** [Player.spend_points] *)
Definition spend_points (p : t) (cost : Z) : t * bool :=
  if points p >=? cost then (set_points p (points p - cost), true)
  else (p, false).

(** [Player.get_grid_pos]; [None] when a conversion to [int] raises. *)
Definition get_grid_pos (p : t) : option (Z * Z) :=
  grid_x <- World.grid_index_at (x p) ;;
  grid_y <- World.grid_index_at (y p) ;;
  Some (grid_x, grid_y).

End Player.

(** ** [Player.rotate] without rounding

    The same two loops on exact rationals, with the rational value of
    the binary64 constant [2 * math.pi]: what the normalisation computes
    when no addition or subtraction is rounded.  The embedding of the
    method is [Player.rotate]; this one serves to tell the effect of
    rounding from the effect of the algorithm. *)

Module IdealHeading.

Definition two_pi : Q := 7074237752028440 # 1125899906842624.

Fixpoint wrap_negative (fuel : nat) (a : Q) : option Q :=
  if negb (Qle_bool 0 a) then
    match fuel with
    | O => None
    | S fuel' => wrap_negative fuel' (a + two_pi)%Q
    end
  else Some a.

Fixpoint wrap_full_turn (fuel : nat) (a : Q) : option Q :=
  if Qle_bool two_pi a then
    match fuel with
    | O => None
    | S fuel' => wrap_full_turn fuel' (a - two_pi)%Q
    end
  else Some a.

Definition rotate (fuel : nat) (heading angle_delta : Q) : option Q :=
  a1 <- wrap_negative fuel (heading + angle_delta)%Q ;;
  wrap_full_turn fuel a1.

(** The number of whole turns in an angle: the quotient of the
    modulo-2*pi operation. *)
Definition turns (a : Q) : Z := Qfloor (a / two_pi).

End IdealHeading.

(** ** game/world.py, continued: [World.update]

    It comes after the player because it calls [player.add_points]. *)

Module WorldUpdate.

Import World.

Section Actors.

(** [zombie.update(dt, player, world)] and [bullet.update(dt, world)]: the
    actor classes are not written yet, so their behaviour is a parameter.
    An update reads the world and changes the actor itself (a zombie may
    also change the player). *)
Variable zombie_update : float -> Player.t -> World.t -> Zombie -> Zombie * Player.t.
Variable bullet_update : float -> World.t -> Bullet -> Bullet.

Definition set_zombies (w : t) (zs : list Zombie) : t :=
  mk (map_data w) zs (bullets w) (wave w) (zombies_remaining w) (zombies_killed w).

Definition set_bullets (w : t) (bs : list Bullet) : t :=
  mk (map_data w) (zombies w) bs (wave w) (zombies_remaining w) (zombies_killed w).

Definition count_kill (w : t) : t :=
  mk (map_data w) (zombies w) (bullets w) (wave w) (zombies_remaining w)
     (zombies_killed w + 1).

(** The loop over [self.zombies[:]].  [todo] is what is left of the copy,
    [kept] the zombies already visited and still in [self.zombies]. *)
Fixpoint update_zombies (dt : float) (todo kept : list Zombie) (w : t) (p : Player.t)
  : t * Player.t :=
  match todo with
  | [] => (set_zombies w kept, p)
  | z :: rest =>
      let '(z', p1) := zombie_update dt p (set_zombies w (kept ++ z :: rest)) z in
      if z_health z' <=? 0
      then update_zombies dt rest kept (count_kill w) (Player.add_points p1 POINTS_PER_KILL)
      else update_zombies dt rest (kept ++ [z']) w p1
  end.

(** The loop over [self.bullets[:]]. *)
Fixpoint update_bullets (dt : float) (todo kept : list Bullet) (w : t) : t :=
  match todo with
  | [] => set_bullets w kept
  | b :: rest =>
      let b' := bullet_update dt (set_bullets w (kept ++ b :: rest)) b in
      if should_remove b'
      then update_bullets dt rest kept w
      else update_bullets dt rest (kept ++ [b']) w
  end.

(** [World.update] *)
Definition update (w : t) (dt : float) (player : Player.t) : t * Player.t :=
  let '(w1, p1) := update_zombies dt (zombies w) [] w player in
  let w2 := update_bullets dt (bullets w1) [] w1 in
  if (len (zombies w2) =? 0) && (zombies_remaining w2 =? 0)
  then (_start_next_wave w2, p1)
  else (w2, p1).

End Actors.

End WorldUpdate.

(** ** game/renderer.py *)

Module Renderer.

(** Conversions between Python's [int] and [float]. *)

(** [float(n)], exact for [|n| < 2^53]. *)
Definition float_of_Z (n : Z) : float :=
  if n <? 0 then (- PrimFloat.of_uint63 (Uint63.of_Z (- n)))%float
  else PrimFloat.of_uint63 (Uint63.of_Z n).

(** [int(f)]: truncation toward zero; [None] where Python raises (nan,
    infinities). *)
Definition int_of_float (f : float) : option Z :=
  match Prim2SF f with
  | S754_zero _ => Some 0
  | S754_finite s m e =>
      let magnitude :=
        if 0 <=? e then Z.pos m * 2 ^ e else Z.pos m / 2 ^ (- e) in
      Some (if s then - magnitude else magnitude)
  | S754_infinity _ => None
  | S754_nan => None
  end.

(** Python's two-argument [min] and [max] on floats: the first argument
    is kept unless the second is strictly better. *)
Definition py_min (a b : float) : float := if (b <? a)%float then b else a.
Definition py_max (a b : float) : float := if (a <? b)%float then b else a.

(** [Renderer.__init__]: precomputed angles.  [math.radians(d)] is
    [d * (pi / 180)]. *)
Definition math_radians (d : float) : float := (d * (Player.math_pi / 180))%float.
Definition fov_rad : float := math_radians (float_of_Z FOV).
Definition half_fov : float := (fov_rad / 2)%float.
Definition angle_step : float := (fov_rad / float_of_Z RAY_COUNT)%float.

(** [self.wall_colors] *)
Definition wall_colors : list (Z * Color) := [ (1, GRAY); (2, DARK_GRAY) ].

(** [dict.get(key, default)] *)
Fixpoint dict_get (d : list (Z * Color)) (key : Z) (default : Color) : Color :=
  match d with
  | [] => default
  | (k, v) :: rest => if k =? key then v else dict_get rest key default
  end.

(** Step size for ray marching. *)
Definition step_size : Z := 4.

(** What an expression that may raise contributes to a run. *)
Definition run_of {A : Type} (m : option A) : Run A :=
  match m with
  | Some a => Done a
  | None => Raised
  end.

(** The [while distance < RENDER_DISTANCE * TILE_SIZE] loop of
    [_cast_ray].  [fuel] counts the iterations allowed: [Unfinished]
    means the loop was still running when they were used up, [Raised]
    that [is_wall], a conversion to [int] or [get_wall_at] raised.
    [steps] is a ghost counter of the iterations made, returned next to
    the loop's result. *)
Fixpoint march (fuel : nat) (world : World.t) (dx dy x y : float) (distance : Z)
  (steps : nat) : Run (nat * (Z * Z)) :=
  if distance <? RENDER_DISTANCE * TILE_SIZE then
    match fuel with
    | O => Unfinished
    | S fuel' =>
        let x := (x + dx * float_of_Z step_size)%float in
        let y := (y + dy * float_of_Z step_size)%float in
        let distance := distance + step_size in
        match World.is_wall_at world x y with
        | None => Raised
        | Some true =>
            run_of (grid_x <- World.grid_index_at x ;;
                    grid_y <- World.grid_index_at y ;;
                    wall_type <- World.get_wall_at world grid_x grid_y ;;
                    Some (S steps, (distance, wall_type)))
        | Some false => march fuel' world dx dy x y distance (S steps)
        end
    end
  else Done (steps, (RENDER_DISTANCE * TILE_SIZE, 0)).

(** The wall strip of one screen column, as [render_3d_view] draws it. *)
Record Strip : Type := mkStrip {
  screen_x : Z;
  strip_width : Z;
  wall_height : float;
  shaded_color : Z * Z * Z
}.

(** [wall_height] of a column: the projection, and the fallback branch. *)
Definition project_height (distance : Z) : float :=
  if distance >? 0 then
    py_min ((float_of_Z TILE_SIZE / float_of_Z distance) * float_of_Z SCREEN_HEIGHT)%float
           (float_of_Z SCREEN_HEIGHT)
  else float_of_Z SCREEN_HEIGHT.

(** The literal [0.1]: the binary64 value nearest to one tenth. *)
Definition point_one : float := 0x1.999999999999ap-4%float.

(** [shade_factor] of a column. *)
Definition shade_factor (distance : Z) : float :=
  py_max point_one (1 - float_of_Z distance / float_of_Z RENDER_DISTANCE)%float.

(** [tuple(int(c * shade_factor) for c in wall_color)] *)
Definition shade (wall_color : Color) (factor : float) : option (Z * Z * Z) :=
  let '(r, g, b) := wall_color in
  r' <- int_of_float (float_of_Z r * factor)%float ;;
  g' <- int_of_float (float_of_Z g * factor)%float ;;
  b' <- int_of_float (float_of_Z b * factor)%float ;;
  Some (r', g', b').

(** The body of the column loop of [render_3d_view], from the ray's
    result on. *)
Definition render_column (ray_index : Z) (distance wall_type : Z) : option Strip :=
  let wall_color := dict_get wall_colors wall_type GRAY in
  shaded <- shade wall_color (shade_factor distance) ;;
  Some {| screen_x := ray_index * (SCREEN_WIDTH / RAY_COUNT);
          strip_width := SCREEN_WIDTH / RAY_COUNT;
          wall_height := project_height distance;
          shaded_color := shaded |}.

Section Trig.

(** The cosine and the sine of the C library, which [math.cos] and
    [math.sin] call. *)
Variables libm_cos libm_sin : float -> float.

(** [Renderer._cast_ray], with [fuel] loop iterations allowed, and the
    number of iterations it made. *)
Definition _cast_ray_steps (fuel : nat) (world : World.t) (start_x start_y : float)
  (angle : float) : Run (nat * (Z * Z)) :=
  match Math.call libm_cos angle with
  | None => Raised
  | Some dx =>
      match Math.call libm_sin angle with
      | None => Raised
      | Some dy => march fuel world dx dy start_x start_y 0 0
      end
  end.

(** [Renderer._cast_ray]: what the method returns. *)
Definition _cast_ray (fuel : nat) (world : World.t) (start_x start_y : float)
  (angle : float) : Run (Z * Z) :=
  match _cast_ray_steps fuel world start_x start_y angle with
  | Done r => Done (snd r)
  | Raised => Raised
  | Unfinished => Unfinished
  end.

(** The column loop of [render_3d_view] over the ray indices [todo]. *)
Fixpoint render_columns (fuel : nat) (world : World.t) (player : Player.t)
  (start_angle : float) (todo : list Z) : Run (list Strip) :=
  match todo with
  | [] => Done []
  | ray_index :: rest =>
      let ray_angle := (start_angle + float_of_Z ray_index * angle_step)%float in
      match _cast_ray fuel world (Player.x player) (Player.y player) ray_angle with
      | Done (distance, wall_type) =>
          match render_column ray_index distance wall_type with
          | Some strip =>
              match render_columns fuel world player start_angle rest with
              | Done strips => Done (strip :: strips)
              | Raised => Raised
              | Unfinished => Unfinished
              end
          | None => Raised
          end
      | Raised => Raised
      | Unfinished => Unfinished
      end
  end.

(** [range(n)] *)
Definition range (n : Z) : list Z := map Z.of_nat (seq 0 (Z.to_nat n)).

(** [Renderer.render_3d_view]: the strips of the columns, left to right. *)
Definition render_3d_view (fuel : nat) (world : World.t) (player : Player.t)
  : Run (list Strip) :=
  let start_angle := (Player.angle player - half_fov)%float in
  render_columns fuel world player start_angle (range RAY_COUNT).

End Trig.

End Renderer.

(** ** Vocabulary of the statements *)

Module Spec.

(** Width and height of the tile map, as the bounds tests read them:
    [len(self.map_data[0])] and [len(self.map_data)]. *)
Definition width (w : World.t) : Z := World.len (hd [] (World.map_data w)).
Definition height (w : World.t) : Z := World.len (World.map_data w).

(** A grid index inside [[0,width) x [0,height)]. *)
Definition in_grid (w : World.t) (grid_x grid_y : Z) : bool :=
  (0 <=? grid_x) && (grid_x <? width w) && (0 <=? grid_y) && (grid_y <? height w).

(** The tile map is a non-empty rectangle: every row is as long as the
    first one. *)
Definition well_formed (w : World.t) : bool :=
  match World.map_data w with
  | [] => false
  | row0 :: _ =>
      forallb (fun row => (List.length row =? List.length row0)%nat) (World.map_data w)
  end.

(** Every tile code of the map is 0 or 1, as in the built-in map. *)
Definition binary_map (w : World.t) : bool :=
  forallb (forallb (fun code => (code =? 0) || (code =? 1))) (World.map_data w).

(** A world whose map holds a wall style other than 1: a single tile of
    code 2 (the renderer's second wall colour) inside a border of 1. *)
Definition styled_world : World.t :=
  World.mk [ [1;1;1]; [1;2;1]; [1;1;1] ] [] [] 1 0 0.

(** The spawn quota [_start_next_wave] sets for wave [n]. *)
Definition wave_quota (n : Z) : Z := n * 6.

(** The render-distance limit of the ray march, in the units of the
    accumulated distance, and the number of steps that fit in it. *)
Definition render_limit : Z := RENDER_DISTANCE * TILE_SIZE.
Definition max_steps : nat := Z.to_nat (render_limit / Renderer.step_size).

(** The coordinate of the ray after [n] iterations of the march loop,
    computed as the loop does, by repeated addition of one step. *)
Fixpoint advance (n : nat) (c d : float) : float :=
  match n with
  | O => c
  | S n' => (advance n' c d + d * Renderer.float_of_Z Renderer.step_size)%float
  end.

(** The strip [s] has the height projected from the positive distance
    [d]: (TILE_SIZE / d) * SCREEN_HEIGHT, capped at SCREEN_HEIGHT. *)
Definition projected_strip (s : Renderer.Strip) (d : Z) : Prop :=
  0 < d /\
  Renderer.wall_height s =
    Renderer.py_min
      (Renderer.float_of_Z TILE_SIZE / Renderer.float_of_Z d
       * Renderer.float_of_Z SCREEN_HEIGHT)%float
      (Renderer.float_of_Z SCREEN_HEIGHT).

(** The shading factor as the specification words it, with the distance
    and the render-distance limit in the same unit:
    max(0.1, 1 - distance / limit), the limit being [render_limit]. *)
Definition same_unit_shade_factor (distance : Z) : float :=
  Renderer.py_max Renderer.point_one
    (1 - Renderer.float_of_Z distance / Renderer.float_of_Z render_limit)%float.

(** The distances a ray can report: the multiples of the step from one
    step up to the limit. *)
Definition ray_distances : list Z :=
  map (fun n => Renderer.step_size * Z.of_nat n) (seq 1 max_steps).

(** The cap of the projected height, checked at a distance [d]: at most
    the screen height, and equal to it up to one tile, below it
    beyond. *)
Definition capped_ok (d : Z) : bool :=
  (Renderer.project_height d <=? Renderer.float_of_Z SCREEN_HEIGHT)%float
  && (if d <=? TILE_SIZE
      then PrimFloat.Leibniz.eqb (Renderer.project_height d)
             (Renderer.float_of_Z SCREEN_HEIGHT)
      else (Renderer.project_height d <? Renderer.float_of_Z SCREEN_HEIGHT)%float).

(** A colour channel in the valid range. *)
Definition channel_ok (c : Z) : bool := (0 <=? c) && (c <=? 255).

(** [render_column] succeeds with every channel in range. *)
Definition column_in_range (distance wall_type : Z) : bool :=
  match Renderer.render_column 0 distance wall_type with
  | Some s =>
      let '(r, g, b) := Renderer.shaded_color s in
      channel_ok r && channel_ok g && channel_ok b
  | None => false
  end.

(** Heading 0: [cos(0.0) = 1.0] and [sin(0.0) = 0.0]. *)
Definition cos_east (a : float) : float := 1.
Definition sin_east (a : float) : float := 0.

(** The same, with what the library answers off the finite numbers: a
    nan for a nan and for an infinity. *)
Definition cos_or_nan (a : float) : float := if is_finite a then 1 else nan.
Definition sin_or_nan (a : float) : float := if is_finite a then 0 else nan.

(** [is_wall] at the ray's position after [n] iterations. *)
Definition wall_after (w : World.t) (dx dy x y : float) (n : nat) : option bool :=
  World.is_wall_at w (advance n x dx) (advance n y dy).

(** The tile code [_cast_ray] reads at the ray's position after [n]
    iterations. *)
Definition wall_type_after (w : World.t) (dx dy x y : float) (n : nat) : option Z :=
  grid_x <- World.grid_index_at (advance n x dx) ;;
  grid_y <- World.grid_index_at (advance n y dy) ;;
  World.get_wall_at w grid_x grid_y.

(** The running totals of a list of damages, from [acc] on. *)
Fixpoint running_totals (acc : Z) (ds : list Z) : list Z :=
  match ds with
  | [] => []
  | d :: rest => (acc + d) :: running_totals (acc + d) rest
  end.

(** A rotation delta of ten to the seventeenth radians: a finite binary64
    value, above 2^56, where neighbouring floats are 16 apart. *)
Definition huge_delta : float := 1e17%float.

(** The fields [take_damage] and [shoot] leave alone. *)
Definition same_pose_and_score (p q : Player.t) : Prop :=
  Player.x q = Player.x p /\ Player.y q = Player.y p /\
  Player.angle q = Player.angle p /\
  Player.max_health q = Player.max_health p /\
  Player.points q = Player.points p /\
  Player.current_weapon q = Player.current_weapon p /\
  Player.max_ammo q = Player.max_ammo p /\
  Player.speed q = Player.speed p.

End Spec.

(** * The rest of the game code

    What follows embeds the methods of [player.py], [world.py] and
    [renderer.py] not used so far, and their callers in [hud.py],
    [game_engine.py] and [test_game_mechanics.py]. *)

(** ** game/settings.py, further constants *)

Module MoreSettings.

(** [MOUSE_SENSITIVITY = 0.002], as the binary64 value nearest to it. *)
Definition MOUSE_SENSITIVITY : float := 0x1.0624dd2f1a9fcp-9%float.

Definition RED : Color := (255, 0, 0).
Definition GREEN : Color := (0, 255, 0).
Definition YELLOW : Color := (255, 255, 0).

Definition GAME_STATE_MENU : string := "menu".
Definition GAME_STATE_PLAYING : string := "playing".
Definition GAME_STATE_PAUSED : string := "paused".
Definition GAME_STATE_GAME_OVER : string := "game_over".

End MoreSettings.

Import MoreSettings.

(** ** game/world.py: the remaining methods *)

Module WorldMore.

(** [World.add_bullet] *)
Definition add_bullet (w : World.t) (bullet : World.Bullet) : World.t :=
  WorldUpdate.set_bullets w (World.bullets w ++ [bullet]).

(** [World.get_map_width]; [None] when [self.map_data[0]] raises. *)
Definition get_map_width (w : World.t) : option Z :=
  row0 <- nth_error (World.map_data w) 0 ;; Some (World.len row0).

(** [World.get_map_height] *)
Definition get_map_height (w : World.t) : Z := World.len (World.map_data w).

End WorldMore.

(** ** game/renderer.py: the vertical placement of a strip *)

Module Geometry.

(** [v // 2] on a float: the floor of the exact half of [v], as a float
    (halving is exact on binary64, so CPython's floor division returns
    exactly this); nan for a non-finite [v]. *)
Definition floordiv_2 (v : float) : float :=
  match Prim2SF v with
  | S754_zero _ => v
  | S754_finite s m e =>
      if 1 <=? e then (v / 2)%float
      else
        let n := if s then Z.neg m else Z.pos m in
        Renderer.float_of_Z (n / 2 ^ (1 - e))
  | S754_infinity _ => nan
  | S754_nan => nan
  end.

(** [wall_top = (SCREEN_HEIGHT - wall_height) // 2] *)
Definition wall_top (distance : Z) : float :=
  floordiv_2 (Renderer.float_of_Z SCREEN_HEIGHT - Renderer.project_height distance)%float.

(** [wall_bottom = wall_top + wall_height] *)
Definition wall_bottom (distance : Z) : float :=
  (wall_top distance + Renderer.project_height distance)%float.

(** The three tests that decide which bands of a column are drawn. *)
Definition draws_ceiling (distance : Z) : bool := (0 <? wall_top distance)%float.
Definition draws_wall (distance : Z) : bool := (0 <? Renderer.project_height distance)%float.
Definition draws_floor (distance : Z) : bool :=
  (wall_bottom distance <? Renderer.float_of_Z SCREEN_HEIGHT)%float.

End Geometry.

(** ** game/hud.py: the health bar *)

Module HUD.

(** [health_width = int((player.health / player.max_health) * 198)];
    [None] when the division raises [ZeroDivisionError]. *)
Definition health_width (p : Player.t) : option Z :=
  if Player.max_health p =? 0 then None
  else
    Renderer.int_of_float
      (Renderer.float_of_Z (Player.health p) / Renderer.float_of_Z (Player.max_health p)
       * 198)%float.

(** The colour of the fill. *)
Definition health_color (p : Player.t) : Color :=
  if Player.health p >? 70 then GREEN
  else if Player.health p >? 30 then YELLOW
  else RED.

(** The fill rectangle of [_render_health]: its width and colour when it
    is drawn, [Some None] when it is not ([health_width <= 0]). *)
Definition health_fill (p : Player.t) : option (option (Z * Color)) :=
  width <- health_width p ;;
  Some (if width >? 0 then Some (width, health_color p) else None).

End HUD.

(** ** game/game_engine.py *)

Module GameEngine.

(** [pygame.K_w], [K_a], [K_s], [K_d]: the key codes of pygame, which are
    the character codes of the letters. *)
Definition K_w : Z := 119.
Definition K_a : Z := 97.
Definition K_s : Z := 115.
Definition K_d : Z := 100.

Record t : Type := mk {
  game_state : string;
  world : World.t;
  player : Player.t;
  keys_pressed : list Z
}.

(** [GameEngine.__init__] *)
Definition init : t :=
  {| game_state := GAME_STATE_PLAYING;
     world := World.init;
     player := Player.init (Renderer.float_of_Z PLAYER_START_X)
                 (Renderer.float_of_Z PLAYER_START_Y);
     keys_pressed := [] |}.

Definition set_player (e : t) (p : Player.t) : t :=
  mk (game_state e) (world e) p (keys_pressed e).

Definition set_keys (e : t) (ks : list Z) : t :=
  mk (game_state e) (world e) (player e) ks.

(** [key in self.keys_pressed] *)
Definition pressed (e : t) (key : Z) : bool :=
  existsb (Z.eqb key) (keys_pressed e).

(** [GameEngine.handle_key_down]: [set.add] *)
Definition handle_key_down (e : t) (key : Z) : t :=
  if pressed e key then e else set_keys e (key :: keys_pressed e).

(** [GameEngine.handle_key_up]: [set.discard] *)
Definition handle_key_up (e : t) (key : Z) : t :=
  set_keys e (filter (fun k => negb (k =? key)) (keys_pressed e)).

(** [GameEngine.handle_mouse_click] *)
Definition handle_mouse_click (e : t) (button : Z) : t :=
  if button =? 1 then set_player e (fst (Player.shoot (player e))) else e.

(** [GameEngine.handle_mouse_motion], [rel] being the pair [(dx, dy)]. *)
Definition handle_mouse_motion (fuel : nat) (e : t) (rel : Z * Z) : option t :=
  if String.eqb (game_state e) GAME_STATE_PLAYING then
    let '(dx, dy) := rel in
    p <- Player.rotate fuel (player e) (Renderer.float_of_Z dx * MOUSE_SENSITIVITY)%float ;;
    Some (set_player e p)
  else Some e.

Section Engine.

(** The cosine and the sine of the C library. *)
Variables libm_cos libm_sin : float -> float.

Variable zombie_update : float -> Player.t -> World.t -> World.Zombie -> World.Zombie * Player.t.
Variable bullet_update : float -> World.t -> World.Bullet -> World.Bullet.

(** One [if key in self.keys_pressed:] block of [_update_playing]: the
    cosine and the sine of [a], added to the movement when [sign] is
    true and subtracted from it otherwise; [None] when [math.cos] or
    [math.sin] raises. *)
Definition steer (held sign : bool) (a : float) (m : float * float)
  : option (float * float) :=
  if held then
    let '(move_x, move_y) := m in
    c <- Math.call libm_cos a ;;
    let move_x := if sign then (move_x + c)%float else (move_x - c)%float in
    s <- Math.call libm_sin a ;;
    let move_y := if sign then (move_y + s)%float else (move_y - s)%float in
    Some (move_x, move_y)
  else Some m.

(** The movement input of [_update_playing], before it is normalised. *)
Definition movement_input (e : t) : option (float * float) :=
  let a := Player.angle (player e) in
  let half_pi := (Player.math_pi / 2)%float in
  m <- steer (pressed e K_w) true a (0, 0)%float ;;
  m <- steer (pressed e K_s) false a m ;;
  m <- steer (pressed e K_a) true (a - half_pi)%float m ;;
  steer (pressed e K_d) true (a + half_pi)%float m.

(** "Normalize movement"; [None] when [math.sqrt] raises, or the
    division by [length] does ([ZeroDivisionError]). *)
Definition normalize (m : float * float) : option (float * float) :=
  let '(move_x, move_y) := m in
  if Player.nonzero move_x || Player.nonzero move_y then
    length <- Math.sqrt (move_x * move_x + move_y * move_y)%float ;;
    if (length =? 0)%float then None
    else Some ((move_x / length)%float, (move_y / length)%float)
  else Some (move_x, move_y).

(** [GameEngine._update_playing] *)
Definition _update_playing (e : t) (dt : float) : option t :=
  m <- movement_input e ;;
  m <- normalize m ;;
  let '(move_x, move_y) := m in
  p1 <- Player.update (player e) dt move_x move_y (world e) ;;
  let '(w2, p2) := WorldUpdate.update zombie_update bullet_update (world e) dt p1 in
  Some (mk (game_state e) w2 p2 (keys_pressed e)).

(** [GameEngine.update] *)
Definition update (e : t) (dt : float) : option t :=
  if String.eqb (game_state e) GAME_STATE_PLAYING then _update_playing e dt
  else Some e.

End Engine.

End GameEngine.

(** ** cod_zombies_game.py: the main loop

    The state changes of the main loop: the events of a pass are
    dispatched to the engine's handlers, then the engine is updated with
    the pass's time delta.  Rendering reads the state and is left out. *)

Module GameLoop.

(** The events the loop tells apart; [OTHER] is any other event type. *)
Inductive Event : Type :=
| QUIT
| KEYDOWN (key : Z)
| KEYUP (key : Z)
| MOUSEBUTTONDOWN (button : Z)
| MOUSEMOTION (rel : Z * Z)
| OTHER.

(** [pygame.K_ESCAPE] *)
Definition K_ESCAPE : Z := 27.

Section Loop.

Variables libm_cos libm_sin : float -> float.
Variable zombie_update : float -> Player.t -> World.t -> World.Zombie -> World.Zombie * Player.t.
Variable bullet_update : float -> World.t -> World.Bullet -> World.Bullet.

(** Iterations allowed to the loops of [Player.rotate]. *)
Variable fuel : nat.

(** [for event in pygame.event.get(): ...], threading the engine and the
    [running] flag. *)
Fixpoint handle_events (events : list Event) (e : GameEngine.t) (running : bool)
  : option (GameEngine.t * bool) :=
  match events with
  | [] => Some (e, running)
  | QUIT :: rest => handle_events rest e false
  | KEYDOWN key :: rest =>
      if key =? K_ESCAPE then handle_events rest e false
      else handle_events rest (GameEngine.handle_key_down e key) running
  | KEYUP key :: rest => handle_events rest (GameEngine.handle_key_up e key) running
  | MOUSEBUTTONDOWN button :: rest =>
      handle_events rest (GameEngine.handle_mouse_click e button) running
  | MOUSEMOTION rel :: rest =>
      e1 <- GameEngine.handle_mouse_motion fuel e rel ;;
      handle_events rest e1 running
  | OTHER :: rest => handle_events rest e running
  end.

(** One pass of [while running]: the events, then [game_engine.update(dt)]. *)
Definition pass (e : GameEngine.t) (dt : float) (events : list Event)
  : option (GameEngine.t * bool) :=
  r <- handle_events events e true ;;
  let '(e1, running) := r in
  e2 <- GameEngine.update libm_cos libm_sin zombie_update bullet_update e1 dt ;;
  Some (e2, running).

(** The loop over the passes that take place, each with its time delta
    and its events; it stops after the pass that clears [running]. *)
Fixpoint main_loop (passes : list (float * list Event)) (e : GameEngine.t)
  : option GameEngine.t :=
  match passes with
  | [] => Some e
  | (dt, events) :: rest =>
      r <- pass e dt events ;;
      let '(e1, running) := r in
      if running then main_loop rest e1 else Some e1
  end.

End Loop.

End GameLoop.

(** ** Runs: the code called repeatedly, as the game loop and the test
    script do *)

Module Runs.

(** [player.shoot()] called [k] times, as in [test_player_shooting]: the
    final state and the flags returned, in order. *)
Fixpoint shoot_times (k : nat) (p : Player.t) : Player.t * list bool :=
  match k with
  | O => (p, [])
  | S k' =>
      let '(p1, fired) := Player.shoot p in
      let '(p2, flags) := shoot_times k' p1 in
      (p2, fired :: flags)
  end.

(** [player.take_damage(d)] for each [d] of a list, in order. *)
Fixpoint take_damages (ds : list Z) (p : Player.t) : Player.t * list bool :=
  match ds with
  | [] => (p, [])
  | d :: rest =>
      let '(p1, down) := Player.take_damage p d in
      let '(p2, flags) := take_damages rest p1 in
      (p2, down :: flags)
  end.

(** [player.update(dt, move_x, move_y, world)] for each frame of a list
    of inputs [(dt, move_x, move_y)], as in [test_player_movement]. *)
Fixpoint updates (frames : list (float * float * float)) (p : Player.t) (w : World.t)
  : option Player.t :=
  match frames with
  | [] => Some p
  | (dt, move_x, move_y) :: rest =>
      p1 <- Player.update p dt move_x move_y w ;;
      updates rest p1 w
  end.

Section WorldRuns.

Variable zombie_update : float -> Player.t -> World.t -> World.Zombie -> World.Zombie * Player.t.
Variable bullet_update : float -> World.t -> World.Bullet -> World.Bullet.

(** [world.update(dt, player)] once per frame, for the frames' deltas. *)
Fixpoint world_updates (dts : list float) (w : World.t) (p : Player.t)
  : World.t * Player.t :=
  match dts with
  | [] => (w, p)
  | dt :: rest =>
      let '(w1, p1) := WorldUpdate.update zombie_update bullet_update w dt p in
      world_updates rest w1 p1
  end.

End WorldRuns.

(** The player stands on an open tile of the map. *)
Definition on_open_tile (w : World.t) (p : Player.t) : Prop :=
  World.is_wall_at w (Player.x p) (Player.y p) = Some false.

(** The sum of a list of damages. *)
Definition total (ds : list Z) : Z := fold_right Z.add 0 ds.

(** A zombie still alive after its update. *)
Definition alive (z : World.Zombie) : Prop := 0 < World.z_health z.

(** The fields of the player other than the heading. *)
Definition same_but_heading (p q : Player.t) : Prop :=
  Player.x q = Player.x p /\ Player.y q = Player.y p /\
  Player.health q = Player.health p /\ Player.max_health q = Player.max_health p /\
  Player.points q = Player.points p /\
  Player.current_weapon q = Player.current_weapon p /\
  Player.ammo q = Player.ammo p /\ Player.max_ammo q = Player.max_ammo p /\
  Player.speed q = Player.speed p.

(** What a rendered strip must satisfy in column [ray_index]: its place
    on the screen, channels in 0..255, and the projected height of a
    distance some ray can report, which is positive and at most the
    screen height. *)
Definition strip_in_column (ray_index : Z) (s : Renderer.Strip) : Prop :=
  Renderer.screen_x s = ray_index * 2 /\
  Renderer.strip_width s = 2 /\
  (let '(r, g, b) := Renderer.shaded_color s in
   Spec.channel_ok r && Spec.channel_ok g && Spec.channel_ok b = true) /\
  exists n, (1 <= n <= Spec.max_steps)%nat /\
    Renderer.wall_height s = Renderer.project_height (Renderer.step_size * Z.of_nat n) /\
    (0 <? Renderer.wall_height s)%float = true /\
    (Renderer.wall_height s <=? Renderer.float_of_Z SCREEN_HEIGHT)%float = true.

(** Checks run over every distance a ray can report. *)
Definition height_ok (d : Z) : bool :=
  (0 <? Renderer.project_height d)%float
  && (Renderer.project_height d <=? Renderer.float_of_Z SCREEN_HEIGHT)%float.

Definition placement_ok (d : Z) : bool :=
  (0 <=? Geometry.wall_top d)%float
  && (Geometry.wall_bottom d <=? Renderer.float_of_Z SCREEN_HEIGHT)%float
  && (Geometry.wall_top d <=? Geometry.wall_bottom d)%float
  && Geometry.draws_wall d.

Definition darker_when_farther (d1 d2 : Z) : bool :=
  if d1 <=? d2
  then (Renderer.shade_factor d2 <=? Renderer.shade_factor d1)%float
  else true.

(** Players with [max_health = 100] and a health of [h]. *)
Definition with_health (h : Z) : Player.t := Player.set_health (Player.init 0 0) h.

Definition health_bar_ok (h : Z) : bool :=
  match HUD.health_width (with_health h) with
  | Some width => (0 <=? width) && (width <=? 198) && Bool.eqb (width >? 0) (h >? 0)
  | None => false
  end.

(** Sample actors for the instances: a zombie that loses 60 health at
    each update and leaves the player alone, a bullet that flags itself
    for removal, and actors that do nothing. *)
Definition burning_zombie (dt : float) (p : Player.t) (w : World.t) (z : World.Zombie)
  : World.Zombie * Player.t :=
  (World.mkZombie (World.z_health z - 60) (World.z_state z), p).

Definition spent_bullet (dt : float) (w : World.t) (b : World.Bullet) : World.Bullet :=
  World.mkBullet true (World.b_state b).

Definition idle_zombie (dt : float) (p : Player.t) (w : World.t) (z : World.Zombie)
  : World.Zombie * Player.t := (z, p).

Definition idle_bullet (dt : float) (w : World.t) (b : World.Bullet) : World.Bullet := b.

(** A world with two zombies, of health 100 and 50, and one bullet. *)
Definition skirmish : World.t :=
  World.mk World.init_map
    [World.mkZombie 100 0; World.mkZombie 50 1] [World.mkBullet false 0] 2 0 0.

(** Sample engines for the instances: the engine as built with W and S
    held down together, and with W alone; and a square root that is
    right on the unit vector the latter produces. *)
Definition engine_w_s : GameEngine.t :=
  GameEngine.handle_key_down (GameEngine.handle_key_down GameEngine.init GameEngine.K_w)
    GameEngine.K_s.

Definition engine_w : GameEngine.t :=
  GameEngine.handle_key_down GameEngine.init GameEngine.K_w.

(** The time delta of a pass at 60 frames per second:
    [clock.tick(FPS) / 1000.0] for a tick of 16 milliseconds. *)
Definition frame_dt : float := (16 / 1000)%float.

(** What the main loop keeps of an engine [e0] in an engine [e]: the
    map, no zombie, the player on an open tile with the health, the
    points and the magazine size of [e0], and a round counter that has
    not gone up nor below 0. *)
Definition kept_by_loop (e0 e : GameEngine.t) : Prop :=
  World.map_data (GameEngine.world e) = World.map_data (GameEngine.world e0) /\
  World.zombies (GameEngine.world e) = [] /\
  on_open_tile (GameEngine.world e) (GameEngine.player e) /\
  Player.health (GameEngine.player e) = Player.health (GameEngine.player e0) /\
  Player.points (GameEngine.player e) = Player.points (GameEngine.player e0) /\
  Player.max_ammo (GameEngine.player e) = Player.max_ammo (GameEngine.player e0) /\
  0 <= Player.ammo (GameEngine.player e) <= Player.ammo (GameEngine.player e0).

(** A session: W held for two passes with a mouse move and two clicks,
    then the escape key. *)
Definition session : list (float * list GameLoop.Event) :=
  [ (frame_dt, [GameLoop.KEYDOWN GameEngine.K_w; GameLoop.MOUSEBUTTONDOWN 1]);
    (frame_dt, [GameLoop.MOUSEMOTION (100, 0); GameLoop.MOUSEBUTTONDOWN 1]);
    (frame_dt, [GameLoop.KEYDOWN GameLoop.K_ESCAPE]);
    (frame_dt, [GameLoop.MOUSEBUTTONDOWN 1]) ].

End Runs.

(** * Properties *)

(** ** Grid world *)

Section GridWorld.

Variable w : World.t.
Hypothesis Hwf : Spec.well_formed w = true.

Lemma well_formed_rows :
  exists row0 rest,
    World.map_data w = row0 :: rest /\
    forall row, In row (World.map_data w) -> List.length row = List.length row0.
Proof.
  unfold Spec.well_formed in Hwf.
  destruct (World.map_data w) as [|row0 rest] eqn:E; [discriminate|].
  exists row0, rest. split; [reflexivity|].
  intros row Hin. rewrite forallb_forall in Hwf.
  apply Nat.eqb_eq. apply Hwf. exact Hin.
Qed.

Lemma out_of_bounds_in_grid (gx gy : Z) :
  World.out_of_bounds w gx gy = Some (negb (Spec.in_grid w gx gy)).
Proof.
  destruct well_formed_rows as (row0 & rest & E & _).
  unfold World.out_of_bounds, Spec.in_grid, Spec.width, Spec.height.
  rewrite E. cbn [nth_error bind hd].
  destruct (gx <? 0) eqn:E1.
  - apply Z.ltb_lt in E1.
    replace (0 <=? gx) with false by (symmetry; apply Z.leb_gt; lia).
    reflexivity.
  - apply Z.ltb_ge in E1.
    replace (0 <=? gx) with true by (symmetry; apply Z.leb_le; lia).
    rewrite Z.geb_leb. cbn [andb].
    destruct (World.len row0 <=? gx) eqn:E2.
    + apply Z.leb_le in E2.
      replace (gx <? World.len row0) with false by (symmetry; apply Z.ltb_ge; lia).
      reflexivity.
    + apply Z.leb_gt in E2.
      replace (gx <? World.len row0) with true by (symmetry; apply Z.ltb_lt; lia).
      cbn [andb].
      destruct (gy <? 0) eqn:E3.
      * apply Z.ltb_lt in E3.
        replace (0 <=? gy) with false by (symmetry; apply Z.leb_gt; lia).
        reflexivity.
      * apply Z.ltb_ge in E3.
        replace (0 <=? gy) with true by (symmetry; apply Z.leb_le; lia).
        rewrite Z.geb_leb. cbn [andb].
        destruct (World.len (row0 :: rest) <=? gy) eqn:E4.
        -- apply Z.leb_le in E4.
           replace (gy <? World.len (row0 :: rest)) with false
             by (symmetry; apply Z.ltb_ge; lia).
           reflexivity.
        -- apply Z.leb_gt in E4.
           replace (gy <? World.len (row0 :: rest)) with true
             by (symmetry; apply Z.ltb_lt; lia).
           reflexivity.
Qed.

Lemma tile_in_grid (gx gy : Z) :
  Spec.in_grid w gx gy = true -> exists code, World.tile w gx gy = Some code.
Proof.
  destruct well_formed_rows as (row0 & rest & E & Hrows).
  unfold Spec.in_grid, Spec.width, Spec.height, World.tile, World.len.
  rewrite E. cbn [hd]. rewrite <- E.
  intros H. apply andb_prop in H as [H Hy2]. apply andb_prop in H as [H Hy1].
  apply andb_prop in H as [Hx1 Hx2].
  apply Z.leb_le in Hx1, Hy1. apply Z.ltb_lt in Hx2, Hy2.
  destruct (nth_error (World.map_data w) (Z.to_nat gy)) as [row|] eqn:Er.
  - cbn [bind].
    assert (Hlen : List.length row = List.length row0)
      by (apply Hrows; eapply nth_error_In; exact Er).
    destruct (nth_error row (Z.to_nat gx)) as [code|] eqn:Ec.
    + exists code. reflexivity.
    + apply nth_error_None in Ec. lia.
  - apply nth_error_None in Er. lia.
Qed.


Lemma get_wall_at_total (gx gy : Z) : exists c, World.get_wall_at w gx gy = Some c.
Proof.
  unfold World.get_wall_at. rewrite out_of_bounds_in_grid. cbn [bind].
  destruct (Spec.in_grid w _ _) eqn:E; cbn [negb].
  - destruct (tile_in_grid _ _ E) as [code Hc]. exists code. exact Hc.
  - eexists. reflexivity.
Qed.




End GridWorld.

(** The built-in map is a 20 x 15 rectangle of codes 0 and 1. *)
Lemma init_world_shape :
  Spec.well_formed World.init = true /\ Spec.binary_map World.init = true /\
  Spec.width World.init = MAP_WIDTH /\ Spec.height World.init = MAP_HEIGHT.
Proof. repeat split; reflexivity. Qed.


(** ** Player controller *)

(** C1 (as the code has it): [take_damage] subtracts the damage from the
    health and clamps the result at 0; it returns true exactly when the
    health left by this call is 0, whatever the health was before the
    call.  So with the health already at 0, a call with a non-negative
    damage returns true again. *)
Theorem take_damage_spec (p : Player.t) (damage : Z) :
  let p' := fst (Player.take_damage p damage) in
  let down := snd (Player.take_damage p damage) in
  Player.health p' = Z.max 0 (Player.health p - damage) /\
  Player.ammo p' = Player.ammo p /\
  Spec.same_pose_and_score p p' /\
  (down = true <-> Player.health p - damage <= 0) /\
  (down = true <-> Player.health p' = 0) /\
  (Player.health p = 0 /\ 0 <= damage -> down = true /\ Player.health p' = 0).
Proof.
  cbv zeta. unfold Player.take_damage.
  cbn [Player.health Player.set_health].
  destruct (Player.health p - damage <=? 0) eqn:E; cbn [fst snd].
  - apply Z.leb_le in E.
    cbn [Player.health Player.ammo Player.set_health].
    repeat split; try reflexivity; try lia; auto.
  - apply Z.leb_gt in E.
    cbn [Player.health Player.ammo Player.set_health].
    repeat split; try reflexivity; try lia; try discriminate.
Qed.

(** C1, counterexample to "never returns true again while health stays at
    0": a fresh player (health 100) takes 100 damage and goes down; hit
    again for 10 with the health at 0, [take_damage] returns true a second
    time. *)
Lemma take_damage_fires_again :
  let p0 := Player.init 0 0 in
  let p1 := fst (Player.take_damage p0 100) in
  let p2 := fst (Player.take_damage p1 10) in
  Player.health p0 = 100 /\
  snd (Player.take_damage p0 100) = true /\ Player.health p1 = 0 /\
  snd (Player.take_damage p1 10) = true /\ Player.health p2 = 0.
Proof. cbv zeta. split; [|split; [|split; [|split]]]; reflexivity. Qed.

(** C9: with [ammo > 0], [shoot] returns true and takes exactly one round
    off the counter, touching nothing else; with [ammo = 0] it returns
    false and hands back the very same state. *)
Theorem shoot_spec (p : Player.t) :
  (0 < Player.ammo p ->
     snd (Player.shoot p) = true /\
     Player.ammo (fst (Player.shoot p)) = Player.ammo p - 1 /\
     Player.health (fst (Player.shoot p)) = Player.health p /\
     Spec.same_pose_and_score p (fst (Player.shoot p))) /\
  (Player.ammo p = 0 ->
     Player.shoot p = (p, false) /\ Player.ammo (fst (Player.shoot p)) = 0).
Proof.
  unfold Player.shoot. split.
  - intros H. apply Z.gtb_lt in H. rewrite H. cbn.
    repeat split; reflexivity.
  - intros H. rewrite H. cbn. split; [reflexivity | exact H].
Qed.

(** C9, an instance: the starting pistol with 8 rounds, and an empty one. *)
Lemma shoot_spec_witness :
  let full := Player.init 0 0 in
  let empty := Player.set_ammo full 0 in
  (snd (Player.shoot full) = true /\ Player.ammo (fst (Player.shoot full)) = 7) /\
  Player.shoot empty = (empty, false).
Proof.
  cbv zeta. split.
  - destruct (shoot_spec (Player.init 0 0)) as [Hfire _].
    destruct (Hfire ltac:(cbn; lia)) as (Ht & Ha & _).
    split; [exact Ht | exact Ha].
  - destruct (shoot_spec (Player.set_ammo (Player.init 0 0) 0)) as [_ Hempty].
    exact (proj1 (Hempty eq_refl)).
Defined.

(** C4: with a nonzero movement direction, [update] first tries the X
    displacement against the current Y and takes it only if [is_wall]
    says no; it then tries the Y displacement against the X it now has
    and takes it only if [is_wall] says no.  The position of the player
    it returns is read off the two answers, and nothing else changes.
    Hence, when the candidate X is inside a wall (wall to the east) and
    the candidate Y at the old X is free (open to the south), the player
    ends at the old X and the candidate Y: a displacement along Y alone.
    The candidates are the binary64 values the code computes; when a
    query raises, so does [update]. *)
Theorem update_axis_separated (w : World.t) (p : Player.t) (dt move_x move_y : float)
  (blocked_x blocked_y : bool) :
  (move_x =? 0)%float = false \/ (move_y =? 0)%float = false ->
  let tile := Renderer.float_of_Z TILE_SIZE in
  let new_x := (Player.x p + move_x * Player.speed p * dt * tile)%float in
  let new_y := (Player.y p + move_y * Player.speed p * dt * tile)%float in
  World.is_wall_at w new_x (Player.y p) = Some blocked_x ->
  let x1 := if blocked_x then Player.x p else new_x in
  World.is_wall_at w x1 new_y = Some blocked_y ->
  let y1 := if blocked_y then Player.y p else new_y in
  exists p',
    Player.update p dt move_x move_y w = Some p' /\
    Player.x p' = x1 /\ Player.y p' = y1 /\
    Player.angle p' = Player.angle p /\ Player.health p' = Player.health p /\
    Player.points p' = Player.points p /\ Player.ammo p' = Player.ammo p /\
    (blocked_x = true -> blocked_y = false ->
     Player.x p' = Player.x p /\ Player.y p' = new_y) /\
    (World.is_wall_at w new_x (Player.y p) = None ->
     Player.update p dt move_x move_y w = None).
Proof.
  intros Hmove tile new_x new_y Hbx x1 Hby y1.
  assert (Hnz : Player.nonzero move_x || Player.nonzero move_y = true).
  { unfold Player.nonzero. destruct Hmove as [-> | ->]; [reflexivity|apply orb_true_r]. }
  assert (Hup : Player.update p dt move_x move_y w
                = Some (Player.set_y (Player.set_x p x1) y1)).
  { unfold Player.update. rewrite Hnz.
    change Player.tile_size with tile. fold new_x new_y. rewrite Hbx. cbn [bind].
    destruct p as [px py pa ph pmh ppt pw pam pma ps].
    subst x1 y1. destruct blocked_x; cbn [negb Player.x Player.set_x] in *;
      rewrite Hby; cbn [bind]; destruct blocked_y; reflexivity. }
  exists (Player.set_y (Player.set_x p x1) y1).
  split; [exact Hup|].
  split; [reflexivity|]. split; [reflexivity|].
  split; [reflexivity|]. split; [reflexivity|].
  split; [reflexivity|]. split; [reflexivity|].
  split.
  - intros -> ->. split; reflexivity.
  - rewrite Hbx. discriminate.
Qed.

(** C4, an instance on the built-in map: the player stands in tile (18,3),
    4 units from the east border wall, with open floor to the south, and
    moves south-east for one frame at 60 frames per second.  It ends
    where it was along X, and further south. *)
Lemma update_axis_separated_witness :
  exists p',
    Player.update (Player.init 1212 192) (1 / 60) 1 1 World.init = Some p' /\
    Player.x p' = 1212%float /\
    (192 <? Player.y p')%float = true /\ (Player.y p' <? 198)%float = true.
Proof.
  destruct (update_axis_separated World.init (Player.init 1212 192)
              (1 / 60) 1 1 true false (or_introl eq_refl) eq_refl eq_refl)
    as (p' & Hup & Hx & Hy & _ & _ & _ & _ & Hslide & _).
  exists p'. split; [exact Hup|].
  destruct (Hslide eq_refl eq_refl) as [Hx' Hy'].
  split; [exact Hx'|]. rewrite Hy'. split; reflexivity.
Defined.

(** The candidate position is rounded as binary64 rounds it: a player at
    (96, 192) moving west for a tenth of a second lands exactly on the
    tile border at 64, inside the open tile (1,3). *)
Lemma update_lands_on_tile_border :
  exists p',
    Player.update (Player.init 96 192) Renderer.point_one (-1) 0 World.init = Some p' /\
    Player.x p' = 64%float /\ Player.y p' = 192%float.
Proof. eexists. split; [reflexivity|]. split; reflexivity. Qed.

(** ** Waves *)

Section Waves.

Variable zombie_update : float -> Player.t -> World.t -> World.Zombie -> World.Zombie * Player.t.
Variable bullet_update : float -> World.t -> World.Bullet -> World.Bullet.

(** The bullet loop only replaces the bullet list. *)
Lemma update_bullets_frame (dt : float) (w : World.t) :
  forall todo kept, exists bs,
    WorldUpdate.update_bullets bullet_update dt todo kept w = WorldUpdate.set_bullets w bs.
Proof.
  induction todo as [|b rest IH]; intros kept; cbn [WorldUpdate.update_bullets].
  - exists kept. reflexivity.
  - destruct (World.should_remove _); apply IH.
Qed.

(** C6: when [update] is called with no active zombie and nothing left to
    spawn, the wave number goes up by one and the spawn quota becomes
    [wave_quota] of the new wave number, [wave_quota] being strictly
    increasing.  From wave 1 the call leads to wave 2, with a quota above
    both wave 1's quota under the same rule and the quota the world held
    before the call. *)
Theorem update_starts_next_wave (w : World.t) (dt : float) (player : Player.t) :
  World.zombies w = [] ->
  World.zombies_remaining w = 0 ->
  let w' := fst (WorldUpdate.update zombie_update bullet_update w dt player) in
  World.wave w' = World.wave w + 1 /\
  World.zombies_remaining w' = Spec.wave_quota (World.wave w') /\
  (forall a b, a < b -> Spec.wave_quota a < Spec.wave_quota b) /\
  (World.wave w = 1 ->
     World.wave w' = 2 /\
     Spec.wave_quota 1 < World.zombies_remaining w' /\
     World.zombies_remaining w < World.zombies_remaining w').
Proof.
  intros Hz Hr. cbv zeta. unfold WorldUpdate.update.
  rewrite Hz. cbn [WorldUpdate.update_zombies].
  destruct (update_bullets_frame dt (WorldUpdate.set_zombies w [])
              (World.bullets (WorldUpdate.set_zombies w [])) []) as [bs ->].
  cbn [WorldUpdate.set_bullets WorldUpdate.set_zombies World.zombies
       World.zombies_remaining World.len List.length Z.of_nat].
  rewrite Hr. cbn [Z.eqb andb fst].
  unfold World._start_next_wave, Spec.wave_quota.
  cbn [World.wave World.zombies_remaining WorldUpdate.set_bullets
       WorldUpdate.set_zombies].
  repeat split; try lia.
Qed.

End Waves.

(** C6, an instance: the world as [World.__init__] builds it (wave 1, no
    zombies, nothing to spawn), with actors that do nothing. *)
Lemma update_starts_next_wave_witness :
  let w' := fst (WorldUpdate.update (fun _ p _ z => (z, p)) (fun _ _ b => b)
                   World.init (1 / 60) (Player.init 192 192)) in
  World.wave w' = 2 /\ World.zombies_remaining w' = 12.
Proof.
  cbv zeta.
  destruct (update_starts_next_wave (fun _ p _ z => (z, p)) (fun _ _ b => b)
              World.init (1 / 60) (Player.init 192 192) eq_refl eq_refl)
    as (_ & Hq & _ & Hw1).
  destruct (Hw1 eq_refl) as (Hw & _).
  split; [exact Hw|]. rewrite Hq, Hw. reflexivity.
Defined.

(** ** Heading *)

(** At [huge_delta] the subtraction of [2 * math.pi] is absorbed by
    rounding: the loop body leaves the heading as it found it, and the
    loop condition still holds. *)
Lemma full_turn_absorbed :
  (Spec.huge_delta - Player.two_pi)%float = Spec.huge_delta /\
  (Player.two_pi <=? Spec.huge_delta)%float = true /\
  (Spec.huge_delta <? 0)%float = false /\
  (0 + Spec.huge_delta)%float = Spec.huge_delta.
Proof. repeat split; reflexivity. Qed.

Lemma wrap_full_turn_stuck (fuel : nat) :
  Player.wrap_full_turn fuel Spec.huge_delta = None.
Proof.
  induction fuel as [|fuel IH]; [reflexivity|].
  change (Player.wrap_full_turn (S fuel) Spec.huge_delta)
    with (Player.wrap_full_turn fuel Spec.huge_delta).
  exact IH.
Qed.

(** C5 (where the code departs from it): for a player heading 0 and the
    finite delta [huge_delta], the normalising loop of [rotate] never
    exits: however many iterations are allowed, [rotate] has not
    returned. *)
Theorem rotate_huge_delta_never_returns (fuel : nat) (x y : float) :
  Player.rotate fuel (Player.init x y) Spec.huge_delta = None.
Proof.
  unfold Player.rotate. cbn [Player.angle Player.init].
  change (0 + Spec.huge_delta)%float with Spec.huge_delta.
  replace (Player.wrap_negative fuel Spec.huge_delta) with (Some Spec.huge_delta)
    by (destruct fuel; reflexivity).
  cbn [bind]. rewrite wrap_full_turn_stuck. reflexivity.
Qed.

(** For comparison, a quarter turn from heading 0 returns at once; a
    full turn from the normalised heading 2^-60 returns heading 0, the
    small heading being lost to rounding. *)
Lemma rotate_small_deltas :
  option_map Player.angle
    (Player.rotate 0 (Player.init 0 0) (Player.math_pi / 2)%float)
    = Some (Player.math_pi / 2)%float /\
  option_map Player.angle
    (Player.rotate 1 (Player.set_angle (Player.init 0 0) 0x1p-60%float) Player.two_pi)
    = Some 0%float.
Proof. split; reflexivity. Qed.

(** When the second loop exits, the heading is below [2 * math.pi]. *)
Lemma wrap_full_turn_exit :
  forall fuel a a',
    Player.wrap_full_turn fuel a = Some a' -> (Player.two_pi <=? a')%float = false.
Proof.
  induction fuel as [|fuel IH]; intros a a' H; cbn [Player.wrap_full_turn] in H;
    destruct (Player.two_pi <=? a)%float eqn:E; try discriminate.
  - injection H as <-. exact E.
  - eapply IH. exact H.
  - injection H as <-. exact E.
Qed.

(** When the sum of heading and delta already lies in the range, neither
    loop runs and the new heading is that sum: no snapping, no steps. *)
Lemma rotate_without_wrap (fuel : nat) (p : Player.t) (delta : float) :
  (Player.angle p + delta <? 0)%float = false ->
  (Player.two_pi <=? Player.angle p + delta)%float = false ->
  Player.rotate fuel p delta = Some (Player.set_angle p (Player.angle p + delta)%float).
Proof.
  intros Hneg Hfull. unfold Player.rotate.
  replace (Player.wrap_negative fuel (Player.angle p + delta)%float)
    with (Some (Player.angle p + delta)%float)
    by (destruct fuel; cbn [Player.wrap_negative]; rewrite Hneg; reflexivity).
  cbn [bind].
  replace (Player.wrap_full_turn fuel (Player.angle p + delta)%float)
    with (Some (Player.angle p + delta)%float)
    by (destruct fuel; cbn [Player.wrap_full_turn]; rewrite Hfull; reflexivity).
  reflexivity.
Qed.

(** *** The normalisation without rounding *)

(** [IdealHeading.two_pi] is the exact value of the float [Player.two_pi]:
    mantissa 7074237752028440, exponent -50. *)
Lemma two_pi_exact_value :
  Prim2SF Player.two_pi = S754_finite false 7074237752028440 (-50) /\
  (IdealHeading.two_pi == 7074237752028440 / inject_Z (2 ^ 50))%Q.
Proof. split; reflexivity. Qed.

Lemma two_pi_pos : (0 < IdealHeading.two_pi)%Q.
Proof. reflexivity. Qed.

Lemma neg_test (a : Q) : negb (Qle_bool 0 a) = true <-> (a < 0)%Q.
Proof.
  destruct (Qle_bool 0 a) eqn:E; cbn [negb].
  - apply Qle_bool_iff in E. split; [discriminate|]. intros H. exfalso. lra.
  - split; [|reflexivity]. intros _. apply Qnot_le_lt. intros H.
    apply Qle_bool_iff in H. congruence.
Qed.

Lemma inject_succ (n : nat) :
  (inject_Z (Z.of_nat (S n)) == inject_Z (Z.of_nat n) + 1)%Q.
Proof. rewrite Nat2Z.inj_succ, <- Z.add_1_r, inject_Z_plus. reflexivity. Qed.

Lemma ideal_wrap_negative (fuel : nat) :
  forall a, (0 <= a + inject_Z (Z.of_nat fuel) * IdealHeading.two_pi)%Q ->
  exists (k : nat) r,
    IdealHeading.wrap_negative fuel a = Some r /\
    (r == a + inject_Z (Z.of_nat k) * IdealHeading.two_pi)%Q /\
    (0 <= r)%Q /\ ((a < 0)%Q -> (r < IdealHeading.two_pi)%Q) /\
    ((0 <= a)%Q -> k = 0%nat).
Proof.
  pose proof two_pi_pos as Htau.
  induction fuel as [|fuel IH]; intros a Ha; cbn [IdealHeading.wrap_negative].
  - change (inject_Z (Z.of_nat 0)) with 0%Q in Ha.
    assert (H0 : (0 <= a)%Q) by lra.
    replace (negb (Qle_bool 0 a)) with false
      by (symmetry; apply negb_false_iff, Qle_bool_iff; exact H0).
    exists 0%nat, a. split; [reflexivity|].
    change (inject_Z (Z.of_nat 0)) with 0%Q.
    split; [lra|]. split; [exact H0|]. split; [intros; lra | reflexivity].
  - destruct (negb (Qle_bool 0 a)) eqn:E.
    + apply neg_test in E.
      rewrite inject_succ in Ha.
      destruct (IH (a + IdealHeading.two_pi)%Q ltac:(lra)) as (k & r & Hr & Hk & H0 & Hlt & Hz).
      exists (S k), r. split; [exact Hr|].
      rewrite inject_succ.
      split; [lra|]. split; [exact H0|]. split.
      * intros _. destruct (Qlt_le_dec (a + IdealHeading.two_pi) 0) as [Hn|Hp].
        -- apply Hlt. exact Hn.
        -- rewrite (Hz Hp) in Hk. change (inject_Z (Z.of_nat 0)) with 0%Q in Hk. lra.
      * intros H. lra.
    + apply negb_false_iff, Qle_bool_iff in E.
      exists 0%nat, a. split; [reflexivity|].
      change (inject_Z (Z.of_nat 0)) with 0%Q.
      split; [lra|]. split; [exact E|]. split; [intros; lra | reflexivity].
Qed.

Lemma ideal_wrap_full_turn (fuel : nat) :
  forall a, (0 <= a)%Q ->
    (a < (inject_Z (Z.of_nat fuel) + 1) * IdealHeading.two_pi)%Q ->
  exists (k : nat) r,
    IdealHeading.wrap_full_turn fuel a = Some r /\
    (r == a - inject_Z (Z.of_nat k) * IdealHeading.two_pi)%Q /\
    (0 <= r)%Q /\ (r < IdealHeading.two_pi)%Q /\
    ((a < IdealHeading.two_pi)%Q -> k = 0%nat).
Proof.
  pose proof two_pi_pos as Htau.
  induction fuel as [|fuel IH]; intros a H0 Ha; cbn [IdealHeading.wrap_full_turn].
  - change (inject_Z (Z.of_nat 0)) with 0%Q in Ha.
    assert (Hlt : (a < IdealHeading.two_pi)%Q) by lra.
    replace (Qle_bool IdealHeading.two_pi a) with false
      by (symmetry; apply not_true_is_false; intros H; apply Qle_bool_iff in H; lra).
    exists 0%nat, a. split; [reflexivity|].
    change (inject_Z (Z.of_nat 0)) with 0%Q.
    split; [lra|]. split; [exact H0|]. split; [exact Hlt | reflexivity].
  - destruct (Qle_bool IdealHeading.two_pi a) eqn:E.
    + apply Qle_bool_iff in E. rewrite inject_succ in Ha.
      destruct (IH (a - IdealHeading.two_pi)%Q ltac:(lra) ltac:(lra))
        as (k & r & Hr & Hk & Hr0 & Hr1 & _).
      exists (S k), r. split; [exact Hr|]. rewrite inject_succ.
      split; [lra|]. split; [exact Hr0|]. split; [exact Hr1|]. intros H. lra.
    + assert (Hlt : (a < IdealHeading.two_pi)%Q).
      { apply Qnot_le_lt. intros H. apply Qle_bool_iff in H. congruence. }
      exists 0%nat, a. split; [reflexivity|].
      change (inject_Z (Z.of_nat 0)) with 0%Q.
      split; [lra|]. split; [exact H0|]. split; [exact Hlt | reflexivity].
Qed.

Lemma scale_le (a b : Q) : (a <= b)%Q -> (a * IdealHeading.two_pi <= b * IdealHeading.two_pi)%Q.
Proof. intros H. apply Qmult_le_compat_r; [exact H | apply Qlt_le_weak, two_pi_pos]. Qed.

Lemma turns_bounds (s : Q) :
  (inject_Z (IdealHeading.turns s) * IdealHeading.two_pi <= s)%Q /\
  (s < (inject_Z (IdealHeading.turns s) + 1) * IdealHeading.two_pi)%Q.
Proof.
  pose proof two_pi_pos as Htau. unfold IdealHeading.turns.
  set (q := (s / IdealHeading.two_pi)%Q).
  assert (Hs : (s == q * IdealHeading.two_pi)%Q).
  { unfold q. rewrite Qmult_comm, Qmult_div_r; [reflexivity|]. intros H. rewrite H in Htau. 
    discriminate. }
  pose proof (Qfloor_le q) as Hlo. pose proof (Qlt_floor q) as Hhi.
  rewrite inject_Z_plus in Hhi. change (inject_Z 1) with 1%Q in Hhi.
  split.
  - rewrite Hs. apply scale_le. exact Hlo.
  - rewrite Hs at 1. apply Qmult_lt_compat_r; assumption.
Qed.

Lemma unique_turn (m : Z) (u v : Q) :
  (0 <= u)%Q -> (u < IdealHeading.two_pi)%Q ->
  (0 <= v)%Q -> (v < IdealHeading.two_pi)%Q ->
  (u == v + inject_Z m * IdealHeading.two_pi)%Q -> m = 0.
Proof.
  intros Hu0 Hu1 Hv0 Hv1 E. pose proof two_pi_pos as Htau.
  destruct (Z_le_gt_dec 1 m) as [H1|H1].
  - exfalso. rewrite Zle_Qle in H1. apply scale_le in H1.
    change (inject_Z 1) with 1%Q in H1. lra.
  - destruct (Z_le_gt_dec m (-1)) as [H2|H2]; [|lia].
    exfalso. rewrite Zle_Qle in H2. apply scale_le in H2.
    change (inject_Z (-1)) with (-1 # 1)%Q in H2. lra.
Qed.

(** Without rounding, [rotate] returns for every heading and delta once
    it is allowed as many iterations as there are whole turns in their
    sum, and the new heading is the sum reduced modulo 2*pi into
    [[0, 2*pi)]. *)
Lemma ideal_rotate_is_modulo (heading delta : Q) (fuel : nat) :
  let s := (heading + delta)%Q in
  (Z.to_nat (Z.abs (IdealHeading.turns s)) <= fuel)%nat ->
  exists r,
    IdealHeading.rotate fuel heading delta = Some r /\
    (0 <= r)%Q /\ (r < IdealHeading.two_pi)%Q /\
    (r == s - inject_Z (IdealHeading.turns s) * IdealHeading.two_pi)%Q.
Proof.
  intros s Hfuel. pose proof two_pi_pos as Htau.
  destruct (turns_bounds s) as [Hlo Hhi].
  set (t := IdealHeading.turns s) in *.
  assert (Hf1 : (- inject_Z t <= inject_Z (Z.of_nat fuel))%Q).
  { rewrite <- inject_Z_opp, <- Zle_Qle. lia. }
  assert (Hf2 : (inject_Z t <= inject_Z (Z.of_nat fuel))%Q).
  { rewrite <- Zle_Qle. lia. }
  apply scale_le in Hf1, Hf2.
  unfold IdealHeading.rotate. fold s.
  destruct (ideal_wrap_negative fuel s ltac:(lra)) as (k1 & r1 & Hr1 & Hk1 & H10 & H1lt & H1z).
  rewrite Hr1. cbn [bind].
  assert (Hr1hi : (r1 < (inject_Z (Z.of_nat fuel) + 1) * IdealHeading.two_pi)%Q).
  { destruct (Qlt_le_dec s 0) as [Hn|Hp].
    - specialize (H1lt Hn).
      assert (0 <= inject_Z (Z.of_nat fuel) * IdealHeading.two_pi)%Q.
      { apply Qmult_le_0_compat; [|lra]. change 0%Q with (inject_Z 0).
        rewrite <- Zle_Qle. lia. }
      lra.
    - rewrite (H1z Hp) in Hk1. change (inject_Z (Z.of_nat 0)) with 0%Q in Hk1. lra. }
  destruct (ideal_wrap_full_turn fuel r1 H10 Hr1hi) as (k2 & r & Hr & Hk2 & Hr0 & Hrlt & _).
  exists r. split; [exact Hr|]. split; [exact Hr0|]. split; [exact Hrlt|].
  assert (Hm : Z.of_nat k1 - Z.of_nat k2 + t = 0).
  { apply (unique_turn _ r (s - inject_Z t * IdealHeading.two_pi)%Q); try lra.
    rewrite inject_Z_plus. unfold Z.sub. rewrite inject_Z_plus, inject_Z_opp. lra. }
  assert (Ht : (inject_Z t == inject_Z (Z.of_nat k2) - inject_Z (Z.of_nat k1))%Q).
  { replace t with (Z.of_nat k2 - Z.of_nat k1) by lia.
    unfold Z.sub. rewrite inject_Z_plus, inject_Z_opp. reflexivity. }
  rewrite Ht. lra.
Qed.

(** Without rounding, a delta of exactly 2*pi leaves a normalised heading
    where it was. *)
Lemma ideal_full_turn_is_noop (heading : Q) (fuel : nat) :
  (0 <= heading)%Q -> (heading < IdealHeading.two_pi)%Q -> (1 <= fuel)%nat ->
  exists r, IdealHeading.rotate fuel heading IdealHeading.two_pi = Some r /\ (r == heading)%Q.
Proof.
  intros H0 H1 Hfuel. pose proof two_pi_pos as Htau.
  set (s := (heading + IdealHeading.two_pi)%Q).
  assert (Ht : IdealHeading.turns s = 1).
  { destruct (turns_bounds s) as [Hlo Hhi].
    assert (IdealHeading.turns s - 1 = 0); [|lia].
    apply (unique_turn _ heading (s - inject_Z (IdealHeading.turns s) * IdealHeading.two_pi)%Q);
      try lra.
    unfold Z.sub. rewrite inject_Z_plus, inject_Z_opp. change (inject_Z 1) with 1%Q.
    unfold s. lra. }
  destruct (ideal_rotate_is_modulo heading IdealHeading.two_pi fuel) as (r & Hr & _ & _ & E).
  { cbv zeta. fold s. rewrite Ht. cbn. lia. }
  exists r. split; [exact Hr|]. cbv zeta in E. fold s in E. rewrite Ht in E.
  change (inject_Z 1) with 1%Q in E. unfold s in E. lra.
Qed.

(** ** Ray march *)

Lemma get_wall_at_of_is_wall (w : World.t) (x y : Q) (b : bool) :
  World.is_wall w x y = Some b ->
  exists code,
    World.get_wall_at w (World.grid_index x) (World.grid_index y) = Some code /\
    b = (code =? 1).
Proof.
  unfold World.is_wall, World.get_wall_at. intros H.
  destruct (World.out_of_bounds w _ _) as [[|]|]; cbn [bind] in *; try discriminate.
  - injection H as <-. exists 1. split; reflexivity.
  - destruct (World.tile w _ _) as [code|]; cbn [bind] in H; [|discriminate].
    injection H as <-. exists code. split; reflexivity.
Qed.

(** The order of binary64 values, read on their specification. *)
Lemma SFcompare_antisym (a b : spec_float) :
  SFcompare b a = option_map CompOpp (SFcompare a b).
Proof.
  destruct a as [sa|sa| |sa ma ea], b as [sb|sb| |sb mb eb]; cbn [SFcompare option_map];
    try reflexivity;
    try (destruct sa; reflexivity); try (destruct sb; reflexivity);
    try (destruct sa, sb; reflexivity).
  destruct sa, sb; try reflexivity; f_equal;
    rewrite (Z.compare_antisym ea eb); destruct (ea ?= eb); cbn [CompOpp]; try reflexivity.
  - rewrite CompOpp_involutive, Pos.compare_cont_antisym. reflexivity.
  - rewrite Pos.compare_cont_antisym. reflexivity.
Qed.

Lemma SFcompare_refl (a : spec_float) :
  SFcompare a a = match a with S754_nan => None | _ => Some Eq end.
Proof.
  destruct a as [s|s| |s m e]; cbn [SFcompare]; try reflexivity.
  - destruct s; reflexivity.
  - rewrite Z.compare_refl, Pos.compare_cont_refl. destruct s; reflexivity.
Qed.

Lemma SFcompare_none (a b : spec_float) :
  SFcompare a b = None -> a = S754_nan \/ b = S754_nan.
Proof.
  destruct a as [sa|sa| |sa ma ea], b as [sb|sb| |sb mb eb]; cbn [SFcompare];
    intros H; try discriminate; auto.
Qed.

(** For [b] not nan and [a] not nan, "not a <= b" is "b < a". *)
Lemma not_leb_ltb (a b : float) :
  Prim2SF a <> S754_nan ->
  (a <=? b)%float = false ->
  (b <? a)%float = negb (PrimFloat.is_nan b).
Proof.
  intros Ha Hle. unfold PrimFloat.is_nan.
  rewrite FloatAxioms.leb_spec in Hle.
  rewrite FloatAxioms.ltb_spec, FloatAxioms.eqb_spec.
  unfold SFleb, SFltb, SFeqb in *.
  rewrite SFcompare_refl. rewrite (SFcompare_antisym (Prim2SF a) (Prim2SF b)).
  destruct (SFcompare (Prim2SF a) (Prim2SF b)) as [[| |]|] eqn:E; try discriminate.
  - cbn [option_map CompOpp].
    destruct (Prim2SF b); try reflexivity.
    destruct (Prim2SF a); cbn [SFcompare] in E; try discriminate.
  - destruct (SFcompare_none _ _ E) as [H|H]; [contradiction|].
    rewrite H. reflexivity.
Qed.

(** [a <= b] rules out [b < a]. *)
Lemma leb_not_ltb (a b : float) :
  (a <=? b)%float = true -> (b <? a)%float = false.
Proof.
  rewrite FloatAxioms.leb_spec, FloatAxioms.ltb_spec. unfold SFleb, SFltb.
  rewrite (SFcompare_antisym (Prim2SF a) (Prim2SF b)).
  destruct (SFcompare (Prim2SF a) (Prim2SF b)) as [[| |]|]; cbn [option_map CompOpp];
    intros H; try discriminate; reflexivity.
Qed.

(** When [is_wall] answers for a point given as floats, both coordinates
    are finite, and [get_wall_at] answers for the point's cell. *)
Lemma wall_type_of_is_wall_at (w : World.t) (x y : float) (b : bool) :
  World.is_wall_at w x y = Some b ->
  exists qx qy code,
    World.exact x = Some qx /\ World.exact y = Some qy /\
    World.is_wall w qx qy = Some b /\
    World.get_wall_at w (World.grid_index qx) (World.grid_index qy) = Some code /\
    b = (code =? 1).
Proof.
  unfold World.is_wall_at. intros H.
  destruct (World.exact x) as [qx|]; cbn [bind] in H; [|discriminate].
  destruct (World.exact y) as [qy|]; cbn [bind] in H; [|discriminate].
  destruct (get_wall_at_of_is_wall w qx qy b H) as (code & Hc & Hb).
  exists qx, qy, code. repeat split; assumption.
Qed.


(** Once the loop has ended, by a return or a raise, allowing it more
    iterations changes nothing. *)
Lemma march_more_fuel (w : World.t) (dx dy : float) :
  forall fuel fuel' x y distance steps,
    (fuel <= fuel')%nat ->
    Renderer.march fuel w dx dy x y distance steps <> Unfinished ->
    Renderer.march fuel' w dx dy x y distance steps
    = Renderer.march fuel w dx dy x y distance steps.
Proof.
  induction fuel as [|fuel IH]; intros fuel' x y distance steps Hle H.
  - destruct fuel'; cbn [Renderer.march] in *;
      destruct (distance <? RENDER_DISTANCE * TILE_SIZE); try reflexivity.
    exfalso. apply H. reflexivity.
  - destruct fuel' as [|fuel']; [lia|].
    cbn [Renderer.march] in *.
    destruct (distance <? RENDER_DISTANCE * TILE_SIZE); [|reflexivity].
    destruct (World.is_wall_at w _ _) as [[|]|]; try reflexivity.
    apply IH; [lia | exact H].
Qed.

(** Every distance the loop returns is at least one step. *)
Lemma march_distance_lower_bound (w : World.t) (dx dy : float) :
  forall fuel x y distance steps n d t,
    0 <= distance ->
    Renderer.march fuel w dx dy x y distance steps = Done (n, (d, t)) ->
    Renderer.step_size <= d.
Proof.
  induction fuel as [|fuel IH]; intros x y distance steps n d t Hd H;
    cbn [Renderer.march] in H;
    destruct (distance <? RENDER_DISTANCE * TILE_SIZE); try discriminate.
  - injection H as _ <- _. vm_compute. discriminate.
  - destruct (World.is_wall_at w _ _) as [[|]|]; try discriminate.
    + unfold Renderer.run_of in H.
      destruct (World.grid_index_at _); cbn [bind] in H; [|discriminate].
      destruct (World.grid_index_at _); cbn [bind] in H; [|discriminate].
      destruct (World.get_wall_at w _ _); cbn [bind] in H; [|discriminate].
      injection H as _ <- _. lia.
    + eapply IH; [|exact H]. unfold Renderer.step_size. lia.
  - injection H as _ <- _. vm_compute. discriminate.
Qed.

Lemma max_steps_value :
  Spec.max_steps = 320%nat /\ Spec.render_limit = 1280 /\
  Spec.render_limit = Renderer.step_size * Z.of_nat Spec.max_steps.
Proof. repeat split; reflexivity. Qed.

Section MarchFrom.

Variable w : World.t.
Variables dx dy x0 y0 : float.

(** The loop resumed after [k] iterations, with at least the remaining
    [max_steps - k] iterations allowed: it ends after [n <= max_steps]
    iterations in all, at the first wall it meets, or at the limit having
    met none, or at the first query that raises. *)
Lemma march_from :
  forall fuel k,
    (k <= Spec.max_steps)%nat -> (Spec.max_steps - k <= fuel)%nat ->
    exists n,
      (k <= n <= Spec.max_steps)%nat /\
      ((k < n)%nat /\
       Spec.wall_after w dx dy x0 y0 n = Some true /\
       (forall j, (k < j < n)%nat -> Spec.wall_after w dx dy x0 y0 j = Some false) /\
       (exists t,
          Spec.wall_type_after w dx dy x0 y0 n = Some t /\
          Renderer.march fuel w dx dy (Spec.advance k x0 dx) (Spec.advance k y0 dy)
            (Renderer.step_size * Z.of_nat k) k
          = Done (n, (Renderer.step_size * Z.of_nat n, t)))
       \/
       n = Spec.max_steps /\
       (forall j, (k < j <= Spec.max_steps)%nat ->
                  Spec.wall_after w dx dy x0 y0 j = Some false) /\
       Renderer.march fuel w dx dy (Spec.advance k x0 dx) (Spec.advance k y0 dy)
         (Renderer.step_size * Z.of_nat k) k
       = Done (Spec.max_steps, (Spec.render_limit, 0))
       \/
       (k < n)%nat /\
       Spec.wall_after w dx dy x0 y0 n = None /\
       (forall j, (k < j < n)%nat -> Spec.wall_after w dx dy x0 y0 j = Some false) /\
       Renderer.march fuel w dx dy (Spec.advance k x0 dx) (Spec.advance k y0 dy)
         (Renderer.step_size * Z.of_nat k) k
       = Raised).
Proof.
  destruct max_steps_value as (Hmax & Hlim & _).
  assert (Hend : forall fuel,
             Renderer.march fuel w dx dy (Spec.advance Spec.max_steps x0 dx)
               (Spec.advance Spec.max_steps y0 dy)
               (Renderer.step_size * Z.of_nat Spec.max_steps) Spec.max_steps
             = Done (Spec.max_steps, (Spec.render_limit, 0))).
  { intros fuel. destruct fuel; reflexivity. }
  induction fuel as [|fuel IH]; intros k Hk Hfuel.
  - assert (k = Spec.max_steps) by lia. subst k.
    exists Spec.max_steps. split; [lia|]. right. left.
    split; [reflexivity|]. split; [intros j Hj; lia | apply Hend].
  - destruct (Nat.eq_dec k Spec.max_steps) as [->|Hne].
    { exists Spec.max_steps. split; [lia|]. right. left.
      split; [reflexivity|]. split; [intros j Hj; lia | apply Hend]. }
    assert (Hk' : (S k <= Spec.max_steps)%nat) by lia.
    cbn [Renderer.march].
    replace (Renderer.step_size * Z.of_nat k <? RENDER_DISTANCE * TILE_SIZE) with true.
    2:{ symmetry. apply Z.ltb_lt. rewrite Hmax in Hk'. unfold Renderer.step_size.
        change (RENDER_DISTANCE * TILE_SIZE) with 1280. lia. }
    change (Spec.advance k x0 dx + dx * Renderer.float_of_Z Renderer.step_size)%float
      with (Spec.advance (S k) x0 dx).
    change (Spec.advance k y0 dy + dy * Renderer.float_of_Z Renderer.step_size)%float
      with (Spec.advance (S k) y0 dy).
    replace (Renderer.step_size * Z.of_nat k + Renderer.step_size)
      with (Renderer.step_size * Z.of_nat (S k)) by lia.
    destruct (World.is_wall_at w (Spec.advance (S k) x0 dx) (Spec.advance (S k) y0 dy))
      as [[|]|] eqn:Hhit.
    + destruct (wall_type_of_is_wall_at _ _ _ _ Hhit) as (qx & qy & t & Hqx & Hqy & _ & Ht & _).
      assert (Hty : Spec.wall_type_after w dx dy x0 y0 (S k) = Some t).
      { unfold Spec.wall_type_after, World.grid_index_at. rewrite Hqx, Hqy. exact Ht. }
      exists (S k). split; [lia|]. left.
      split; [lia|]. split; [exact Hhit|]. split; [intros j Hj; lia|].
      exists t. split; [exact Hty|].
      unfold Spec.wall_type_after in Hty. unfold Renderer.run_of.
      destruct (World.grid_index_at (Spec.advance (S k) x0 dx)) as [gx|];
        cbn [bind] in *; [|discriminate].
      destruct (World.grid_index_at (Spec.advance (S k) y0 dy)) as [gy|];
        cbn [bind] in *; [|discriminate].
      rewrite Hty. reflexivity.
    + destruct (IH (S k) Hk' ltac:(lia)) as (n & Hn & Hcases).
      exists n. split; [lia|].
      destruct Hcases as [(Hlt & Hw & Hbefore & t & Hty & Hrun)
                         | [(Hn' & Hnone & Hrun) | (Hlt & Hw & Hbefore & Hrun)]].
      * left. split; [lia|]. split; [exact Hw|]. split.
        -- intros j Hj. destruct (Nat.eq_dec j (S k)) as [->|Hj'];
             [exact Hhit | apply Hbefore; lia].
        -- exists t. split; [exact Hty | exact Hrun].
      * right. left. split; [exact Hn'|]. split; [|exact Hrun].
        intros j Hj. destruct (Nat.eq_dec j (S k)) as [->|Hj'];
          [exact Hhit | apply Hnone; lia].
      * right. right. split; [lia|]. split; [exact Hw|]. split; [|exact Hrun].
        intros j Hj. destruct (Nat.eq_dec j (S k)) as [->|Hj'];
          [exact Hhit | apply Hbefore; lia].
    + exists (S k). split; [lia|]. right. right.
      split; [lia|]. split; [exact Hhit|]. split; [intros j Hj; lia | reflexivity].
Qed.

End MarchFrom.

Section CastRay.

Variables libm_cos libm_sin : float -> float.


Lemma cast_ray_done (w : World.t) (start_x start_y angle : float) (fuel : nat)
  (distance wall_type : Z) :
  Renderer._cast_ray libm_cos libm_sin fuel w start_x start_y angle
    = Done (distance, wall_type) ->
  exists dx dy n,
    Renderer.march fuel w dx dy start_x start_y 0 0 = Done (n, (distance, wall_type)).
Proof.
  unfold Renderer._cast_ray, Renderer._cast_ray_steps. intros H.
  destruct (Math.call libm_cos angle) as [dx|]; [|discriminate].
  destruct (Math.call libm_sin angle) as [dy|]; [|discriminate].
  destruct (Renderer.march fuel w dx dy start_x start_y 0 0%nat) as [[n [d t]]| |] eqn:Em;
    try discriminate.
  cbn [snd] in H. injection H as -> ->. exists dx, dy, n. exact Em.
Qed.

Lemma cast_ray_lower_bound (w : World.t) (start_x start_y angle : float) (fuel : nat)
  (distance wall_type : Z) :
  Renderer._cast_ray libm_cos libm_sin fuel w start_x start_y angle
    = Done (distance, wall_type) ->
  Renderer.step_size <= distance.
Proof.
  intros H. destruct (cast_ray_done _ _ _ _ _ _ _ H) as (dx & dy & n & Em).
  exact (march_distance_lower_bound _ _ _ _ _ _ _ _ _ _ _ (Z.le_refl 0) Em).
Qed.

Lemma project_height_positive (d : Z) :
  0 < d ->
  (d >? 0) = true /\
  Renderer.project_height d =
    Renderer.py_min
      (Renderer.float_of_Z TILE_SIZE / Renderer.float_of_Z d
       * Renderer.float_of_Z SCREEN_HEIGHT)%float
      (Renderer.float_of_Z SCREEN_HEIGHT).
Proof.
  intros Hd. assert (Hgt : (d >? 0) = true) by (apply Z.gtb_lt; exact Hd).
  split; [exact Hgt|]. unfold Renderer.project_height. rewrite Hgt. reflexivity.
Qed.

(** What the column loop does with one column, when it returns. *)
Lemma render_columns_cons (w : World.t) (player : Player.t) (fuel : nat)
  (start_angle : float) (i : Z) (rest : list Z) (strips : list Renderer.Strip) :
  Renderer.render_columns libm_cos libm_sin fuel w player start_angle (i :: rest)
    = Done strips ->
  exists d t strip strips',
    Renderer._cast_ray libm_cos libm_sin fuel w (Player.x player) (Player.y player)
      (start_angle + Renderer.float_of_Z i * Renderer.angle_step)%float = Done (d, t) /\
    Renderer.render_column i d t = Some strip /\
    Renderer.render_columns libm_cos libm_sin fuel w player start_angle rest
      = Done strips' /\
    strips = strip :: strips'.
Proof.
  cbn [Renderer.render_columns]. intros H.
  destruct (Renderer._cast_ray _ _ _ _ _ _ _) as [[d t]| |]; try discriminate.
  destruct (Renderer.render_column i d t) as [strip|] eqn:Es; [|discriminate].
  destruct (Renderer.render_columns _ _ _ _ _ _ rest) as [strips'| |]; try discriminate.
  injection H as <-. exists d, t, strip, strips'.
  split; [reflexivity|]. split; [exact Es|]. split; reflexivity.
Qed.

(** In the column loop, no strip gets its height from the fallback
    branch: each has the projected height of a positive distance. *)
Lemma render_columns_projected (w : World.t) (player : Player.t) (fuel : nat)
  (start_angle : float) :
  forall todo strips,
    Renderer.render_columns libm_cos libm_sin fuel w player start_angle todo
      = Done strips ->
    Forall (fun s => exists d, Spec.projected_strip s d) strips.
Proof.
  induction todo as [|i rest IH]; intros strips H.
  - cbn [Renderer.render_columns] in H. injection H as <-. constructor.
  - destruct (render_columns_cons _ _ _ _ _ _ _ H) as (d & t & strip & strips' & Er & Es & Erest & ->).
    constructor; [|apply IH; exact Erest].
    pose proof (cast_ray_lower_bound _ _ _ _ _ _ _ Er) as Hd.
    assert (Hpos : 0 < d) by (unfold Renderer.step_size in Hd; lia).
    destruct (project_height_positive d Hpos) as [Hgt Hh].
    exists d. unfold Spec.projected_strip. split; [exact Hpos|]. rewrite <- Hh.
    unfold Renderer.render_column in Es.
    destruct (Renderer.shade _ _); cbn [bind] in Es; [|discriminate].
    injection Es as <-. reflexivity.
Qed.

(** C10: every distance [_cast_ray] returns is at least one step, hence
    positive: the ray is advanced, and the distance increased by the
    positive step, before the first wall test.  So the test
    [distance > 0] of [render_3d_view] succeeds and the strip height is
    the projected one; in a rendered frame no strip has the height of the
    fallback [else] branch. *)
Theorem cast_ray_distance_positive (w : World.t) (start_x start_y angle : float)
  (fuel : nat) (distance wall_type : Z) :
  Renderer._cast_ray libm_cos libm_sin fuel w start_x start_y angle
    = Done (distance, wall_type) ->
  (Renderer.step_size <= distance /\ 0 < Renderer.step_size /\ 0 < distance) /\
  ((distance >? 0) = true /\
   Renderer.project_height distance =
     Renderer.py_min
       (Renderer.float_of_Z TILE_SIZE / Renderer.float_of_Z distance
        * Renderer.float_of_Z SCREEN_HEIGHT)%float
       (Renderer.float_of_Z SCREEN_HEIGHT)) /\
  (forall player strips,
     Renderer.render_3d_view libm_cos libm_sin fuel w player = Done strips ->
     Forall (fun s => exists d, Spec.projected_strip s d) strips).
Proof.
  intros H. pose proof (cast_ray_lower_bound _ _ _ _ _ _ _ H) as Hd.
  assert (Hpos : 0 < distance) by (unfold Renderer.step_size in Hd; lia).
  split; [|split].
  - split; [exact Hd|]. split; [reflexivity | exact Hpos].
  - apply project_height_positive. exact Hpos.
  - intros player strips Hr. unfold Renderer.render_3d_view in Hr.
    eapply render_columns_projected. exact Hr.
Qed.

(** The projected height over the distances a ray can report: it never
    exceeds the screen height, and it is the screen height exactly up to
    one tile (64 units), where the projection reaches it. *)
Lemma project_height_capped (n : nat) :
  (1 <= n <= Spec.max_steps)%nat ->
  let d := Renderer.step_size * Z.of_nat n in
  (Renderer.project_height d <=? Renderer.float_of_Z SCREEN_HEIGHT)%float = true /\
  (d <= TILE_SIZE -> Renderer.project_height d = Renderer.float_of_Z SCREEN_HEIGHT) /\
  (TILE_SIZE < d ->
   (Renderer.project_height d <? Renderer.float_of_Z SCREEN_HEIGHT)%float = true).
Proof.
  intros Hn d.
  assert (Hall : forallb Spec.capped_ok Spec.ray_distances = true)
    by (vm_compute; reflexivity).
  rewrite forallb_forall in Hall.
  assert (Hin : In d Spec.ray_distances).
  { unfold Spec.ray_distances.
    apply (in_map (fun n => Renderer.step_size * Z.of_nat n)).
    apply in_seq. lia. }
  specialize (Hall _ Hin). unfold Spec.capped_ok in Hall.
  apply andb_prop in Hall as [Hle Hcase]. split; [exact Hle|].
  destruct (d <=? TILE_SIZE) eqn:E.
  - apply Z.leb_le in E. split; [|lia]. intros _.
    apply FloatAxioms.Leibniz.eqb_spec. exact Hcase.
  - apply Z.leb_gt in E. split; [lia|]. intros _. exact Hcase.
Qed.

(** C8: on the built-in map, the ray cast from the spawn point straight
    east (heading 0, where the cosine is 1 and the sine 0) reports the
    distance 1024 = (MAP_WIDTH - 1 - 3) * TILE_SIZE, so within one step of
    it, hitting a tile of code 1.  For every positive distance the strip
    height is (TILE_SIZE / distance) * SCREEN_HEIGHT where that is at
    most SCREEN_HEIGHT, and SCREEN_HEIGHT where it is more; over the
    distances a ray can report it never exceeds SCREEN_HEIGHT and is cut
    down to it up to one tile away.  It is 48 at the reported distance
    and 768, not the uncapped 12288, one step from a wall. *)
Theorem east_ray_from_spawn (fuel : nat) :
  libm_cos 0%float = 1%float ->
  libm_sin 0%float = 0%float ->
  (Spec.max_steps <= fuel)%nat ->
  let expected := (MAP_WIDTH - 1 - 3) * TILE_SIZE in
  let cap := Renderer.float_of_Z SCREEN_HEIGHT in
  exists distance,
    Renderer._cast_ray libm_cos libm_sin fuel World.init
      (Renderer.float_of_Z PLAYER_START_X) (Renderer.float_of_Z PLAYER_START_Y) 0%float
      = Done (distance, 1) /\
    distance = expected /\
    Z.abs (distance - expected) <= Renderer.step_size /\
    (forall d, 0 < d ->
       let raw := (Renderer.float_of_Z TILE_SIZE / Renderer.float_of_Z d * cap)%float in
       ((raw <=? cap)%float = true -> Renderer.project_height d = raw) /\
       ((cap <? raw)%float = true -> Renderer.project_height d = cap)) /\
    (forall n, (1 <= n <= Spec.max_steps)%nat ->
       (Renderer.project_height (Renderer.step_size * Z.of_nat n) <=? cap)%float = true /\
       (Renderer.step_size * Z.of_nat n <= TILE_SIZE ->
        Renderer.project_height (Renderer.step_size * Z.of_nat n) = cap)) /\
    Renderer.project_height distance = 48%float /\
    Renderer.project_height Renderer.step_size = 768%float /\
    (Renderer.float_of_Z TILE_SIZE / Renderer.float_of_Z Renderer.step_size * cap)%float
      = 12288%float.
Proof.
  intros Hcos Hsin Hfuel expected cap. exists 1024.
  split; [|split; [reflexivity|split; [vm_compute; discriminate|
           split; [|split; [|split; [|split]]]]]].
  - unfold Renderer._cast_ray, Renderer._cast_ray_steps.
    assert (Hc : Math.call libm_cos 0%float = Some 1%float)
      by (unfold Math.call; rewrite Hcos; reflexivity).
    assert (Hs : Math.call libm_sin 0%float = Some 0%float)
      by (unfold Math.call; rewrite Hsin; reflexivity).
    rewrite Hc, Hs.
    rewrite (march_more_fuel World.init 1 0 Spec.max_steps fuel _ _ _ _ Hfuel).
    + vm_compute. reflexivity.
    + vm_compute. discriminate.
  - intros d Hd raw. destruct (project_height_positive d Hd) as [_ Hh].
    rewrite Hh. fold cap. fold raw. unfold Renderer.py_min. split.
    + intros Hle. rewrite (leb_not_ltb _ _ Hle). reflexivity.
    + intros Hlt. rewrite Hlt. reflexivity.
  - intros n Hn. destruct (project_height_capped n Hn) as (Hle & Heq & _).
    split; [exact Hle | exact Heq].
  - reflexivity.
  - reflexivity.
  - reflexivity.
Qed.

End CastRay.


(** The ray's position is rounded as binary64 rounds it: at the heading
    6.283185307179586, the float nearest to a full turn, the sine is
    about -2.4e-16, and adding four times that to 192 gives 192 again;
    the ray stays in row 3 and reports the east border, as at heading
    0. *)
Lemma march_absorbs_small_sine :
  Renderer.march Spec.max_steps World.init 1 (-0x1.1a62633145c07p-52) 192 192 0 0
    = Done (256%nat, (1024, 1)).
Proof. vm_compute. reflexivity. Qed.


(** C10, an instance: the same ray returns 1024, which is positive. *)
Lemma cast_ray_distance_positive_witness :
  Renderer._cast_ray Spec.cos_east Spec.sin_east Spec.max_steps World.init
    192 192 0 = Done (1024, 1) /\
  (1024 >? 0) = true.
Proof.
  assert (H : Renderer._cast_ray Spec.cos_east Spec.sin_east Spec.max_steps World.init
                192 192 0 = Done (1024, 1))
    by (vm_compute; reflexivity).
  split; [exact H|].
  exact (proj1 (proj1 (proj2
    (cast_ray_distance_positive Spec.cos_east Spec.sin_east World.init 192 192
       0 Spec.max_steps 1024 1 H)))).
Defined.

(** C8, an instance, with cosine and sine as they are at heading 0. *)
Lemma east_ray_from_spawn_witness :
  Renderer._cast_ray Spec.cos_east Spec.sin_east 400 World.init
    (Renderer.float_of_Z PLAYER_START_X) (Renderer.float_of_Z PLAYER_START_Y) 0
    = Done (1024, 1) /\
  Renderer.project_height 1024 = 48%float.
Proof.
  destruct (east_ray_from_spawn Spec.cos_east Spec.sin_east 400
              eq_refl eq_refl ltac:(vm_compute; lia))
    as (d & Hray & Hd & _ & _ & _ & Hh & _).
  cbv zeta in Hd. change ((MAP_WIDTH - 1 - 3) * TILE_SIZE) with 1024 in Hd.
  subst d. split; [exact Hray | exact Hh].
Defined.

(** ** Shading *)

(** C2 (where the code departs from it): a ray cast east from (1152, 192)
    on the built-in map meets the border one tile away and reports the
    distance 64.  The code's factor divides that distance, counted in
    units of 1/64 tile, by the limit counted in tiles: it is already at
    its floor 0.1, and the gray wall is drawn as (12, 12, 12).  With both
    in the same unit the factor is 1 - 64/1280 = 0.95 and the strip would
    be (121, 121, 121). *)
Theorem shade_factor_mixes_units :
  Renderer._cast_ray Spec.cos_east Spec.sin_east Spec.max_steps World.init
    1152 192 0 = Done (1 * TILE_SIZE, 1) /\
  Renderer.shade_factor (1 * TILE_SIZE) = Renderer.point_one /\
  option_map Renderer.shaded_color (Renderer.render_column 0 (1 * TILE_SIZE) 1)
    = Some (12, 12, 12) /\
  Renderer.shade GRAY (Spec.same_unit_shade_factor (1 * TILE_SIZE))
    = Some (121, 121, 121).
Proof. split; [|split; [|split]]; vm_compute; reflexivity. Qed.

(** Whatever distance a ray reports and whatever the wall type, the
    shaded colour is computed without error and each channel lies in
    0..255. *)
Lemma shaded_channels_in_range (n : nat) (wall_type : Z) :
  (1 <= n <= Spec.max_steps)%nat ->
  Spec.column_in_range (Renderer.step_size * Z.of_nat n) wall_type = true.
Proof.
  intros Hn.
  assert (Hall : forallb (fun d => Spec.column_in_range d 1 && Spec.column_in_range d 2
                                   && Spec.column_in_range d 0)
                   Spec.ray_distances = true) by (vm_compute; reflexivity).
  rewrite forallb_forall in Hall.
  assert (Hin : In (Renderer.step_size * Z.of_nat n) Spec.ray_distances).
  { unfold Spec.ray_distances.
    apply (in_map (fun n => Renderer.step_size * Z.of_nat n)).
    apply in_seq. lia. }
  specialize (Hall _ Hin).
  apply andb_prop in Hall as [Hall H0]. apply andb_prop in Hall as [H1 H2].
  unfold Spec.column_in_range, Renderer.render_column in *.
  unfold Renderer.wall_colors, Renderer.dict_get in *.
  destruct (1 =? wall_type) eqn:E1; [exact H1|].
  destruct (2 =? wall_type) eqn:E2; [exact H2|].
  exact H0.
Qed.

(** * Further properties *)

(** ** Ammunition *)

Lemma shoot_times_ammo (k : nat) :
  forall p, 0 <= Player.ammo p ->
    Player.ammo (fst (Runs.shoot_times k p)) = Z.max 0 (Player.ammo p - Z.of_nat k) /\
    Player.max_ammo (fst (Runs.shoot_times k p)) = Player.max_ammo p /\
    Player.health (fst (Runs.shoot_times k p)) = Player.health p /\
    Spec.same_pose_and_score p (fst (Runs.shoot_times k p)) /\
    snd (Runs.shoot_times k p) =
      repeat true (Nat.min k (Z.to_nat (Player.ammo p)))
      ++ repeat false (k - Z.to_nat (Player.ammo p)).
Proof.
  induction k as [|k IH]; intros p Ha.
  - cbn [Runs.shoot_times fst snd Nat.min repeat Nat.sub app].
    split; [lia|]. repeat split; reflexivity.
  - cbn [Runs.shoot_times]. unfold Player.shoot.
    destruct (Player.ammo p >? 0) eqn:E.
    + apply Z.gtb_lt in E.
      specialize (IH (Player.set_ammo p (Player.ammo p - 1))).
      cbn [Player.ammo Player.set_ammo] in IH.
      destruct (IH ltac:(lia)) as (Hammo & Hmax & Hh & Hsame & Hflags).
      destruct (Runs.shoot_times k _) as [p2 flags]. cbn [fst snd] in *.
      split; [lia|]. split; [exact Hmax|]. split; [exact Hh|]. split; [exact Hsame|].
      rewrite Hflags.
      replace (Z.to_nat (Player.ammo p)) with (S (Z.to_nat (Player.ammo p - 1))) by lia.
      reflexivity.
    + rewrite Z.gtb_ltb in E. apply Z.ltb_ge in E.
      assert (Hz : Player.ammo p = 0) by lia.
      destruct (IH p Ha) as (Hammo & Hmax & Hh & Hsame & Hflags).
      destruct (Runs.shoot_times k p) as [p2 flags]. cbn [fst snd] in *.
      split; [lia|]. split; [exact Hmax|]. split; [exact Hh|]. split; [exact Hsame|].
      rewrite Hflags, Hz. cbn [Z.to_nat]. rewrite Nat.min_0_r, !Nat.sub_0_r.
      reflexivity.
Qed.

(** X1: pulling the trigger [k] times on a counter of [a >= 0] rounds
    fires min(k, a) times, first the shots and then the empty clicks, and
    leaves max(0, a - k) rounds; nothing else of the player changes. *)
Theorem shoot_times_spec (k : nat) (p : Player.t) :
  0 <= Player.ammo p ->
  let a := Z.to_nat (Player.ammo p) in
  snd (Runs.shoot_times k p) = repeat true (Nat.min k a) ++ repeat false (k - a) /\
  Player.ammo (fst (Runs.shoot_times k p)) = Z.max 0 (Player.ammo p - Z.of_nat k) /\
  Player.health (fst (Runs.shoot_times k p)) = Player.health p /\
  Player.max_ammo (fst (Runs.shoot_times k p)) = Player.max_ammo p /\
  Spec.same_pose_and_score p (fst (Runs.shoot_times k p)).
Proof.
  intros Ha. destruct (shoot_times_ammo k p Ha) as (H1 & H2 & H3 & H4 & H5).
  cbv zeta. repeat split; try assumption; apply H4.
Qed.

(** X1, an instance: the test script's ten pulls on the starting pistol
    of 8 rounds. *)
Lemma shoot_times_spec_witness :
  snd (Runs.shoot_times 10 (Player.init 0 0))
    = [true; true; true; true; true; true; true; true; false; false] /\
  Player.ammo (fst (Runs.shoot_times 10 (Player.init 0 0))) = 0.
Proof.
  destruct (shoot_times_spec 10 (Player.init 0 0) ltac:(cbn; lia)) as (Hf & Ha & _).
  split; [exact Hf | exact Ha].
Defined.

(** X2: [reload] sets the counter to the larger of its value and
    [max_ammo], never lowering it, and changes nothing else; so after any
    number of shots from a counter within [0, max_ammo], a reload brings
    it back to [max_ammo]. *)
Theorem reload_spec (p : Player.t) (k : nat) :
  Player.ammo (Player.reload p) = Z.max (Player.ammo p) (Player.max_ammo p) /\
  Player.max_ammo (Player.reload p) = Player.max_ammo p /\
  Player.health (Player.reload p) = Player.health p /\
  Spec.same_pose_and_score p (Player.reload p) /\
  (0 <= Player.ammo p <= Player.max_ammo p ->
   Player.ammo (Player.reload (fst (Runs.shoot_times k p))) = Player.max_ammo p).
Proof.
  assert (Hr : forall q, Player.ammo (Player.reload q)
                         = Z.max (Player.ammo q) (Player.max_ammo q)).
  { intros q. unfold Player.reload.
    destruct (Player.ammo q <? Player.max_ammo q) eqn:E.
    - apply Z.ltb_lt in E. cbn [Player.ammo Player.set_ammo]. lia.
    - apply Z.ltb_ge in E. lia. }
  split; [apply Hr|].
  split; [|split; [|split]].
  - unfold Player.reload. destruct (_ <? _); reflexivity.
  - unfold Player.reload. destruct (_ <? _); reflexivity.
  - unfold Player.reload. destruct (_ <? _); repeat split; reflexivity.
  - intros [H0 Hmax]. rewrite Hr.
    destruct (shoot_times_ammo k p H0) as (Ha & Hm & _). rewrite Ha, Hm. lia.
Qed.

(** ** Damage *)

Lemma take_damages_down (ds : list Z) :
  forall p, Player.health p = 0 -> Forall (fun d => 0 <= d) ds ->
    Player.health (fst (Runs.take_damages ds p)) = 0 /\
    snd (Runs.take_damages ds p) = repeat true (List.length ds).
Proof.
  induction ds as [|d rest IH]; intros p Hh Hds; cbn [Runs.take_damages].
  - split; [exact Hh | reflexivity].
  - inversion Hds as [|? ? Hd Hrest]; subst.
    unfold Player.take_damage. cbn [Player.health Player.set_health].
    replace (Player.health p - d <=? 0) with true by (symmetry; apply Z.leb_le; lia).
    specialize (IH (Player.set_health (Player.set_health p (Player.health p - d)) 0)
                   eq_refl Hrest).
    destruct (Runs.take_damages rest _) as [p2 flags]. cbn [fst snd] in *.
    destruct IH as [IH1 IH2]. split; [exact IH1|]. rewrite IH2. reflexivity.
Qed.

(** The flags of a run of non-negative damages, read off the running
    totals: [h] is the health the run started from, [acc] the damage
    taken so far. *)
Lemma take_damages_flags (ds : list Z) :
  forall p h acc,
    Player.health p = Z.max 0 (h - acc) ->
    Forall (fun d => 0 <= d) ds ->
    Player.health (fst (Runs.take_damages ds p)) = Z.max 0 (h - acc - Runs.total ds) /\
    snd (Runs.take_damages ds p) = map (fun s => h <=? s) (Spec.running_totals acc ds).
Proof.
  induction ds as [|d rest IH]; intros p h acc Hp Hds; cbn [Runs.take_damages].
  - cbn [fst snd Runs.total fold_right Spec.running_totals map]. split; [lia | reflexivity].
  - inversion Hds as [|? ? Hd Hrest]; subst.
    unfold Player.take_damage. cbn [Player.health Player.set_health].
    cbn [Spec.running_totals map].
    assert (Htot : Runs.total (d :: rest) = d + Runs.total rest) by reflexivity.
    destruct (Player.health p - d <=? 0) eqn:E.
    + apply Z.leb_le in E.
      specialize (IH (Player.set_health (Player.set_health p (Player.health p - d)) 0)
                     h (acc + d)).
      cbn [Player.health Player.set_health] in IH.
      destruct (IH ltac:(lia) Hrest) as [H1 H2].
      destruct (Runs.take_damages rest _) as [p2 flags]. cbn [fst snd] in *.
      split; [rewrite H1, Htot; f_equal; lia|].
      rewrite H2. f_equal. symmetry. apply Z.leb_le. lia.
    + apply Z.leb_gt in E.
      specialize (IH (Player.set_health p (Player.health p - d)) h (acc + d)).
      cbn [Player.health Player.set_health] in IH.
      destruct (IH ltac:(lia) Hrest) as [H1 H2].
      destruct (Runs.take_damages rest _) as [p2 flags]. cbn [fst snd] in *.
      split; [rewrite H1, Htot; f_equal; lia|].
      rewrite H2. f_equal. symmetry. apply Z.leb_gt. lia.
Qed.

(** The running totals of non-negative damages do not decrease: the
    totals below [h] come first. *)
Lemma running_totals_split (h : Z) (ds : list Z) :
  forall acc,
    Forall (fun d => 0 <= d) ds ->
    let below := List.length (filter (fun s => s <? h) (Spec.running_totals acc ds)) in
    (h <= acc -> below = 0%nat) /\
    map (fun s => h <=? s) (Spec.running_totals acc ds)
    = repeat false below ++ repeat true (List.length ds - below).
Proof.
  induction ds as [|d rest IH]; intros acc Hds; cbn [Spec.running_totals filter map].
  - cbv zeta. cbn. split; reflexivity.
  - inversion Hds as [|? ? Hd Hrest]; subst.
    destruct (IH (acc + d) Hrest) as [Hzero Hshape]. cbv zeta in *.
    destruct (acc + d <? h) eqn:E.
    + apply Z.ltb_lt in E. cbn [List.length]. split; [lia|].
      replace (h <=? acc + d) with false by (symmetry; apply Z.leb_gt; exact E).
      rewrite Hshape. reflexivity.
    + apply Z.ltb_ge in E. rewrite (Hzero E) in *. split; [reflexivity|].
      replace (h <=? acc + d) with true by (symmetry; apply Z.leb_le; exact E).
      rewrite Hshape. cbn [repeat app List.length Nat.sub]. rewrite Nat.sub_0_r.
      reflexivity.
Qed.

(** X3: a run of non-negative damages on a health [h >= 0] leaves
    max(0, h - total).  Each call answers true exactly when the damage
    summed up to and including it has reached [h]; so the calls answer
    false as long as the running total is below [h], and true from then
    on. *)
Theorem take_damages_spec (ds : list Z) (p : Player.t) :
  0 <= Player.health p ->
  Forall (fun d => 0 <= d) ds ->
  let h := Player.health p in
  let totals := Spec.running_totals 0 ds in
  let below := List.length (filter (fun s => s <? h) totals) in
  Player.health (fst (Runs.take_damages ds p)) = Z.max 0 (h - Runs.total ds) /\
  snd (Runs.take_damages ds p) = map (fun s => h <=? s) totals /\
  snd (Runs.take_damages ds p)
    = repeat false below ++ repeat true (List.length ds - below).
Proof.
  intros Hh Hds h totals below.
  destruct (take_damages_flags ds p h 0 ltac:(subst h; lia) Hds) as [H1 H2].
  split; [rewrite H1; f_equal; lia|]. split; [exact H2|].
  rewrite H2. exact (proj2 (running_totals_split h ds 0 Hds)).
Qed.

(** X3, an instance: a fresh player (health 100) hit four times for 40:
    the running totals are 40, 80, 120, 160. *)
Lemma take_damages_spec_witness :
  Player.health (fst (Runs.take_damages [40; 40; 40; 40] (Player.init 0 0))) = 0 /\
  snd (Runs.take_damages [40; 40; 40; 40] (Player.init 0 0)) = [false; false; true; true].
Proof.
  destruct (take_damages_spec [40; 40; 40; 40] (Player.init 0 0) ltac:(apply Z.leb_le; reflexivity)
              ltac:(repeat constructor; apply Z.leb_le; reflexivity)) as (Hh & Hf & _).
  split; [exact Hh | exact Hf].
Defined.

(** ** Points *)

(** X4: with a non-negative score, [spend_points] succeeds exactly when
    the cost is covered, never leaves the score negative, leaves the
    player untouched when it fails, and undoes an [add_points] of the
    same amount. *)
Theorem spend_points_spec (p : Player.t) (cost n : Z) :
  0 <= Player.points p ->
  (snd (Player.spend_points p cost) = true <-> cost <= Player.points p) /\
  (cost <= Player.points p ->
   Player.points (fst (Player.spend_points p cost)) = Player.points p - cost) /\
  (Player.points p < cost -> Player.spend_points p cost = (p, false)) /\
  0 <= Player.points (fst (Player.spend_points p cost)) /\
  Player.spend_points (Player.add_points p n) n = (p, true).
Proof.
  intros Hp. unfold Player.spend_points.
  split; [|split; [|split; [|split]]].
  - destruct (Player.points p >=? cost) eqn:E; cbn [snd].
    + apply Z.geb_le in E. split; [intros _; exact E | reflexivity].
    + rewrite Z.geb_leb in E. apply Z.leb_gt in E. split; [discriminate | lia].
  - intros H. replace (Player.points p >=? cost) with true
      by (symmetry; apply Z.geb_le; exact H). reflexivity.
  - intros H. replace (Player.points p >=? cost) with false
      by (symmetry; rewrite Z.geb_leb; apply Z.leb_gt; exact H). reflexivity.
  - destruct (Player.points p >=? cost) eqn:E; cbn [fst].
    + apply Z.geb_le in E. cbn [Player.points Player.set_points]. lia.
    + exact Hp.
  - unfold Player.add_points. cbn [Player.points Player.set_points].
    replace (Player.points p + n >=? n) with true by (symmetry; apply Z.geb_le; lia).
    destruct p as [px py pa ph pmh ppt pw pam pma ps].
    cbn [Player.set_points Player.points Player.x Player.y Player.angle Player.health
         Player.max_health Player.current_weapon Player.ammo Player.max_ammo Player.speed].
    replace (ppt + n - n) with ppt by lia. reflexivity.
Qed.

(** X4, an instance: the test script's kill bonus of 50 on the starting
    500 points, then a purchase of 100 and a refused one of 1000. *)
Lemma spend_points_spec_witness :
  let p := Player.add_points (Player.init 0 0) POINTS_PER_KILL in
  Player.points (fst (Player.spend_points p 100)) = 450 /\
  Player.spend_points p 1000 = (p, false).
Proof.
  cbv zeta.
  destruct (spend_points_spec (Player.add_points (Player.init 0 0) POINTS_PER_KILL) 100 0
              ltac:(cbn; lia)) as (_ & Hok & _).
  destruct (spend_points_spec (Player.add_points (Player.init 0 0) POINTS_PER_KILL) 1000 0
              ltac:(cbn; lia)) as (_ & _ & Hno & _).
  split; [rewrite Hok; [reflexivity | cbn; lia] | apply Hno; cbn; lia].
Defined.

(** ** Movement *)

(** X5: with a zero movement vector, [update] hands the player back
    untouched and asks the world nothing: it cannot raise, even on a map
    with no rows. *)
Theorem update_zero_move (w : World.t) (p : Player.t) (dt move_x move_y : float) :
  (move_x =? 0)%float = true -> (move_y =? 0)%float = true ->
  Player.update p dt move_x move_y w = Some p.
Proof.
  intros Hx Hy. unfold Player.update, Player.nonzero. rewrite Hx, Hy. reflexivity.
Qed.

(** X5, an instance: a world whose map is empty, where [is_wall] raises;
    the movement vector is (0.0, -0.0). *)
Lemma update_zero_move_witness :
  let nowhere := World.mk [] [] [] 1 0 0 in
  World.is_wall_at nowhere 0 0 = None /\
  Player.update (Player.init 0 0) (1 / 60) 0 (-0) nowhere = Some (Player.init 0 0).
Proof.
  cbv zeta. split; [reflexivity|].
  apply update_zero_move; reflexivity.
Defined.

Lemma open_tile_in_grid (w : World.t) (x y : Q) :
  Spec.well_formed w = true ->
  World.is_wall w x y = Some false ->
  Spec.in_grid w (World.grid_index x) (World.grid_index y) = true.
Proof.
  intros Hwf H. unfold World.is_wall in H.
  rewrite (out_of_bounds_in_grid w Hwf) in H. cbn [bind] in H.
  destruct (Spec.in_grid w _ _); [reflexivity|]. cbn [negb] in H. discriminate.
Qed.

(** A player on an open tile of a rectangular map has a grid position,
    inside the grid. *)
Lemma open_tile_grid_pos (w : World.t) (p : Player.t) :
  Spec.well_formed w = true ->
  Runs.on_open_tile w p ->
  exists grid_x grid_y,
    Player.get_grid_pos p = Some (grid_x, grid_y) /\
    Spec.in_grid w grid_x grid_y = true.
Proof.
  intros Hwf Hopen. unfold Runs.on_open_tile in Hopen.
  destruct (wall_type_of_is_wall_at _ _ _ _ Hopen) as (qx & qy & _ & Hqx & Hqy & Hw & _).
  exists (World.grid_index qx), (World.grid_index qy).
  unfold Player.get_grid_pos, World.grid_index_at. rewrite Hqx, Hqy.
  split; [reflexivity|]. apply open_tile_in_grid; assumption.
Qed.

(** What [Player.update] can change is the position. *)
Lemma update_moves_only (p p' : Player.t) (dt move_x move_y : float) (w : World.t) :
  Player.update p dt move_x move_y w = Some p' ->
  exists x' y', p' = Player.set_y (Player.set_x p x') y'.
Proof.
  destruct p as [px py pa ph pmh ppt pw pam pma ps].
  unfold Player.update. cbn [Player.x Player.y Player.speed]. intros H.
  destruct (_ || _).
  - destruct (World.is_wall_at w _ py) as [bx|]; cbn [bind] in H; [|discriminate].
    destruct bx; cbn [negb Player.x Player.set_x] in H.
    + destruct (World.is_wall_at w _ _) as [by_|]; cbn [bind] in H; [|discriminate].
      injection H as <-. destruct by_; cbn [negb]; eexists _, _;
        unfold Player.set_y, Player.set_x; cbn; reflexivity.
    + destruct (World.is_wall_at w _ _) as [by_|]; cbn [bind] in H; [|discriminate].
      injection H as <-. destruct by_; cbn [negb]; eexists _, _;
        unfold Player.set_y, Player.set_x; cbn; reflexivity.
  - injection H as <-. eexists _, _. unfold Player.set_y, Player.set_x. cbn. reflexivity.
Qed.

(** One frame of movement that returns keeps the player on an open
    tile: each coordinate it takes is one [is_wall] answered false for. *)
Lemma update_stays_open (w : World.t) (p p' : Player.t) (dt move_x move_y : float) :
  Runs.on_open_tile w p ->
  Player.update p dt move_x move_y w = Some p' ->
  Runs.on_open_tile w p' /\
  Player.health p' = Player.health p /\ Player.ammo p' = Player.ammo p /\
  Player.angle p' = Player.angle p /\ Player.points p' = Player.points p.
Proof.
  intros Hopen. unfold Runs.on_open_tile in *. unfold Player.update.
  destruct (Player.nonzero move_x || Player.nonzero move_y).
  - set (new_x := (Player.x p + move_x * Player.speed p * dt * Player.tile_size)%float).
    set (new_y := (Player.y p + move_y * Player.speed p * dt * Player.tile_size)%float).
    destruct (World.is_wall_at w new_x (Player.y p)) as [bx|] eqn:Hbx;
      cbn [bind]; [|discriminate].
    destruct bx; cbn [negb].
    + destruct (World.is_wall_at w (Player.x p) new_y) as [by_|] eqn:Hby;
        cbn [bind]; [|discriminate].
      destruct by_; cbn [negb]; intros [= <-].
      * repeat split; try reflexivity. exact Hopen.
      * repeat split; try reflexivity. exact Hby.
    + cbn [Player.x Player.set_x].
      destruct (World.is_wall_at w new_x new_y) as [by_|] eqn:Hby;
        cbn [bind]; [|discriminate].
      destruct by_; cbn [negb]; intros [= <-].
      * repeat split; try reflexivity. exact Hbx.
      * repeat split; try reflexivity. exact Hby.
  - intros [= <-]. repeat split; try reflexivity. exact Hopen.
Qed.

(** X6: on a rectangular map, whenever a run of [update] calls returns,
    whatever the time steps and directions, a player who stood on an open
    tile stands on an open tile, at a grid position inside the grid; the
    run has changed neither health, ammo, heading nor points.  (A run
    raises when a candidate coordinate is not a finite number, as with a
    time step of 1e308.) *)
Theorem updates_stay_on_open_tiles (w : World.t) (frames : list (float * float * float))
  (p p' : Player.t) :
  Spec.well_formed w = true ->
  Runs.on_open_tile w p ->
  Runs.updates frames p w = Some p' ->
  Runs.on_open_tile w p' /\
  (exists grid_x grid_y,
     Player.get_grid_pos p' = Some (grid_x, grid_y) /\
     Spec.in_grid w grid_x grid_y = true) /\
  Player.health p' = Player.health p /\ Player.ammo p' = Player.ammo p /\
  Player.angle p' = Player.angle p /\ Player.points p' = Player.points p.
Proof.
  intros Hwf. revert p.
  induction frames as [|[[dt mx] my] rest IH]; intros p Hopen H; cbn [Runs.updates] in H.
  - injection H as <-. split; [exact Hopen|].
    split; [apply open_tile_grid_pos; assumption|]. repeat split; reflexivity.
  - destruct (Player.update p dt mx my w) as [p1|] eqn:Hup; cbn [bind] in H; [|discriminate].
    destruct (update_stays_open w p p1 dt mx my Hopen Hup)
      as (Hopen1 & Hh & Ha & Hang & Hpt).
    destruct (IH p1 Hopen1 H) as (Hopen' & Hin & Hh' & Ha' & Hang' & Hpt').
    split; [exact Hopen'|]. split; [exact Hin|].
    repeat split; congruence.
Qed.

(** X6, an instance: the test script's 60 frames of running west into
    the border wall from (64, 64), on the built-in map; the player stays
    at (64, 64). *)
Lemma updates_stay_on_open_tiles_witness :
  exists p', Runs.updates (repeat ((1 / 60)%float, (-1)%float, 0%float) 60)
               (Player.init 64 64) World.init = Some p' /\
             Player.x p' = 64%float /\
             Runs.on_open_tile World.init p'.
Proof.
  eexists. split; [vm_compute; reflexivity|]. split; [reflexivity|].
  eapply (updates_stay_on_open_tiles World.init
            (repeat ((1 / 60)%float, (-1)%float, 0%float) 60)
            (Player.init 64 64) _ eq_refl eq_refl).
  vm_compute. reflexivity.
Defined.

(** With the finite time step 0x1.1ccf385ebc8ap+1023, the float written
    1e308, the candidate coordinate is an infinity, and [update]
    raises. *)
Lemma update_raises_on_overflow :
  (1 * 5 * 0x1.1ccf385ebc8ap+1023 * 64)%float = infinity /\
  Player.update (Player.init 192 192) 0x1.1ccf385ebc8ap+1023 1 0 World.init = None.
Proof. split; vm_compute; reflexivity. Qed.

(** ** Heading, continued *)

Lemma wrap_loops_frame (fuel : nat) (p p' : Player.t) (delta : float) :
  Player.rotate fuel p delta = Some p' ->
  exists a, p' = Player.set_angle p a /\ (Player.two_pi <=? a)%float = false.
Proof.
  unfold Player.rotate. intros H.
  destruct (Player.wrap_negative fuel _) as [a1|]; cbn [bind] in H; [|discriminate].
  destruct (Player.wrap_full_turn fuel a1) as [a2|] eqn:E2; cbn [bind] in H; [|discriminate].
  injection H as <-. exists a2. split; [reflexivity|].
  exact (wrap_full_turn_exit _ _ _ E2).
Qed.

(** X7: whenever [rotate] returns, the new heading is not at or above
    [2 * math.pi] (it compares strictly below it unless it is nan), and
    the player's position, health, ammunition and points are what they
    were. *)
Theorem rotate_returns_below_full_turn (fuel : nat) (p p' : Player.t) (delta : float) :
  Player.rotate fuel p delta = Some p' ->
  (Player.two_pi <=? Player.angle p')%float = false /\
  (Player.angle p' <? Player.two_pi)%float = negb (PrimFloat.is_nan (Player.angle p')) /\
  Runs.same_but_heading p p'.
Proof.
  intros H. destruct (wrap_loops_frame fuel p p' delta H) as (a & -> & Ha).
  cbn [Player.angle Player.set_angle]. split; [exact Ha|]. split.
  - apply not_leb_ltb; [|exact Ha].
    rewrite (proj1 two_pi_exact_value). discriminate.
  - repeat split; reflexivity.
Qed.

(** X7, an instance: a turn of one radian to the left from heading 0
    wraps once, to 2*pi - 1. *)
Lemma rotate_returns_below_full_turn_witness :
  exists p', Player.rotate 1 (Player.init 0 0) (-1)%float = Some p' /\
             (Player.angle p' <? Player.two_pi)%float = true /\
             Player.angle p' = (-1 + Player.two_pi)%float.
Proof.
  eexists. split; [reflexivity|].
  destruct (rotate_returns_below_full_turn 1 (Player.init 0 0) _ (-1)%float eq_refl)
    as (_ & Hlt & _).
  split; [rewrite Hlt; reflexivity | reflexivity].
Defined.

(** ** Wall queries *)

(** X8: the two wall queries agree on every map, rectangular or not:
    whenever [is_wall] answers for a point, [get_wall_at] answers for
    the point's cell, and [is_wall] says true exactly when that answer is
    the code 1. *)
Theorem wall_queries_agree (w : World.t) (x y : Q) (b : bool) :
  World.is_wall w x y = Some b ->
  exists code,
    World.get_wall_at w (World.grid_index x) (World.grid_index y) = Some code /\
    (b = true <-> code = 1).
Proof.
  intros H. destruct (get_wall_at_of_is_wall w x y b H) as (code & Hc & ->).
  exists code. split; [exact Hc|]. apply Z.eqb_eq.
Qed.

(** X8, an instance: a point beyond the east edge of the built-in map. *)
Lemma wall_queries_agree_witness :
  World.is_wall World.init (2000 # 1) (192 # 1) = Some true /\
  World.get_wall_at World.init 31 3 = Some 1.
Proof.
  assert (H : World.is_wall World.init (2000 # 1) (192 # 1) = Some true) by reflexivity.
  split; [exact H|].
  destruct (wall_queries_agree World.init (2000 # 1) (192 # 1) true H) as (code & Hc & Hiff).
  rewrite <- (proj1 Hiff eq_refl). exact Hc.
Defined.

Lemma march_wall_type (w : World.t) (dx dy : float) :
  forall fuel x y distance steps n d t,
    Renderer.march fuel w dx dy x y distance steps = Done (n, (d, t)) ->
    t = 1 \/ t = 0 /\ d = Spec.render_limit.
Proof.
  induction fuel as [|fuel IH]; intros x y distance steps n d t H;
    cbn [Renderer.march] in H;
    destruct (distance <? RENDER_DISTANCE * TILE_SIZE); try discriminate.
  - injection H as _ <- <-. right. split; reflexivity.
  - destruct (World.is_wall_at w _ _) as [[|]|] eqn:Ew; try discriminate.
    + destruct (wall_type_of_is_wall_at _ _ _ _ Ew) as (qx & qy & code & Hqx & Hqy & _ & Hc & Hb).
      unfold Renderer.run_of, World.grid_index_at in H. rewrite Hqx, Hqy in H.
      cbn [bind] in H. rewrite Hc in H. cbn [bind] in H. injection H as _ _ <-.
      left. symmetry in Hb. apply Z.eqb_eq in Hb. exact Hb.
    + eapply IH. exact H.
  - injection H as _ <- <-. right. split; reflexivity.
Qed.

Section WallType.

Variables libm_cos libm_sin : float -> float.

(** X9: the wall type [_cast_ray] returns is 1 for every hit, whatever
    the map holds, and 0 only together with the render-distance limit;
    so the colour looked up for a strip is always GRAY, and the second
    entry of [wall_colors] is never used. *)
Theorem cast_ray_wall_type (w : World.t) (start_x start_y angle : float)
  (fuel : nat) (distance wall_type : Z) :
  Renderer._cast_ray libm_cos libm_sin fuel w start_x start_y angle
    = Done (distance, wall_type) ->
  (wall_type = 1 \/ wall_type = 0 /\ distance = Spec.render_limit) /\
  Renderer.dict_get Renderer.wall_colors wall_type GRAY = GRAY.
Proof.
  intros H. destruct (cast_ray_done _ _ _ _ _ _ _ _ _ H) as (dx & dy & n & Em).
  pose proof (march_wall_type _ _ _ _ _ _ _ _ _ _ _ Em) as Ht.
  split; [exact Ht|].
  destruct Ht as [-> | [-> _]]; reflexivity.
Qed.

End WallType.

(** X9, an instance: in [styled_world], whose centre tile has code 2, a
    ray cast east from the west border passes through that tile and
    reports the border beyond it, with wall type 1. *)
Lemma cast_ray_wall_type_witness :
  Renderer._cast_ray Spec.cos_east Spec.sin_east Spec.max_steps Spec.styled_world
    60 96 0 = Done (68, 1) /\
  Renderer.dict_get Renderer.wall_colors 1 GRAY = GRAY.
Proof.
  assert (H : Renderer._cast_ray Spec.cos_east Spec.sin_east Spec.max_steps
                Spec.styled_world 60 96 0 = Done (68, 1))
    by (vm_compute; reflexivity).
  split; [exact H|].
  exact (proj2 (cast_ray_wall_type Spec.cos_east Spec.sin_east Spec.styled_world
                  60 96 0 Spec.max_steps 68 1 H)).
Defined.

(** ** Actors and waves *)

Section Accounting.

Variable zombie_update : float -> Player.t -> World.t -> World.Zombie -> World.Zombie * Player.t.
Variable bullet_update : float -> World.t -> World.Bullet -> World.Bullet.

(** The zombie loop: what it leaves alone, and how it counts. *)
Lemma update_zombies_accounting (dt : float) :
  forall todo kept w p w' p',
    WorldUpdate.update_zombies zombie_update dt todo kept w p = (w', p') ->
    Forall Runs.alive kept ->
    World.map_data w' = World.map_data w /\
    World.bullets w' = World.bullets w /\
    World.wave w' = World.wave w /\
    World.zombies_remaining w' = World.zombies_remaining w /\
    Forall Runs.alive (World.zombies w') /\
    0 <= World.zombies_killed w' - World.zombies_killed w /\
    World.len (World.zombies w') + (World.zombies_killed w' - World.zombies_killed w)
      = World.len kept + World.len todo.
Proof.
  unfold World.len.
  induction todo as [|z rest IH]; intros kept w p w' p' H Hkept;
    cbn [WorldUpdate.update_zombies] in H.
  - injection H as <- <-.
    cbn [WorldUpdate.set_zombies World.map_data World.bullets World.wave
         World.zombies_remaining World.zombies World.zombies_killed List.length].
    repeat split; try reflexivity; try assumption; lia.
  - destruct (zombie_update dt p _ z) as [z' p1].
    destruct (World.z_health z' <=? 0) eqn:E.
    + destruct (IH _ _ _ _ _ H Hkept) as (H1 & H2 & H3 & H4 & H5 & H6 & H7).
      cbn [WorldUpdate.count_kill World.map_data World.bullets World.wave
           World.zombies_remaining World.zombies_killed] in *.
      repeat split; try assumption; cbn [List.length]; lia.
    + apply Z.leb_gt in E.
      assert (Hkept' : Forall Runs.alive (kept ++ [z'])).
      { apply Forall_app. split; [exact Hkept|]. constructor; [exact E | constructor]. }
      destruct (IH _ _ _ _ _ H Hkept') as (H1 & H2 & H3 & H4 & H5 & H6 & H7).
      repeat split; try assumption.
      rewrite H7, length_app. cbn [List.length]. lia.
Qed.

(** The bullet loop: what it leaves alone, and what it keeps. *)
Lemma update_bullets_accounting (dt : float) (w : World.t) :
  forall todo kept,
    Forall (fun b => World.should_remove b = false) kept ->
    exists bs,
      WorldUpdate.update_bullets bullet_update dt todo kept w = WorldUpdate.set_bullets w bs /\
      Forall (fun b => World.should_remove b = false) bs /\
      (List.length bs <= List.length kept + List.length todo)%nat.
Proof.
  induction todo as [|b rest IH]; intros kept Hkept; cbn [WorldUpdate.update_bullets].
  - exists kept. split; [reflexivity|]. split; [exact Hkept | cbn; lia].
  - destruct (World.should_remove (bullet_update dt _ b)) eqn:E.
    + destruct (IH kept Hkept) as (bs & H1 & H2 & H3).
      exists bs. split; [exact H1|]. split; [exact H2 | cbn [List.length]; lia].
    + assert (Hkept' : Forall (fun b => World.should_remove b = false)
                         (kept ++ [bullet_update dt (WorldUpdate.set_bullets w (kept ++ b :: rest)) b])).
      { apply Forall_app. split; [exact Hkept|]. constructor; [exact E | constructor]. }
      destruct (IH _ Hkept') as (bs & H1 & H2 & H3).
      exists bs. split; [exact H1|]. split; [exact H2|].
      rewrite length_app in H3. cbn [List.length] in *. lia.
Qed.

(** One [update], summed up. *)
Lemma update_summary (w : World.t) (dt : float) (p : Player.t) :
  let w' := fst (WorldUpdate.update zombie_update bullet_update w dt p) in
  World.map_data w' = World.map_data w /\
  Forall Runs.alive (World.zombies w') /\
  0 <= World.zombies_killed w' - World.zombies_killed w /\
  World.len (World.zombies w') + (World.zombies_killed w' - World.zombies_killed w)
    = World.len (World.zombies w) /\
  Forall (fun b => World.should_remove b = false) (World.bullets w') /\
  (List.length (World.bullets w') <= List.length (World.bullets w))%nat /\
  (World.wave w' = World.wave w /\
   World.zombies_remaining w' = World.zombies_remaining w /\
   (World.zombies w' <> [] \/ World.zombies_remaining w <> 0)
   \/
   World.wave w' = World.wave w + 1 /\
   World.zombies_remaining w' = (World.wave w + 1) * 6 /\
   World.zombies w' = [] /\ World.zombies_remaining w = 0).
Proof.
  cbv zeta. unfold WorldUpdate.update.
  destruct (WorldUpdate.update_zombies zombie_update dt (World.zombies w) [] w p)
    as [w1 p1] eqn:Ez.
  destruct (update_zombies_accounting dt _ _ _ _ _ _ Ez (Forall_nil _))
    as (Hm & Hb & Hw & Hr & Halive & Hk0 & Hk).
  destruct (update_bullets_accounting dt w1 (World.bullets w1) [] (Forall_nil _))
    as (bs & Hbs & Hkeep & Hlen).
  rewrite Hbs.
  cbn [WorldUpdate.set_bullets World.zombies World.zombies_remaining].
  change (World.len (@nil World.Zombie)) with 0 in Hk.
  destruct ((World.len (World.zombies w1) =? 0) && (World.zombies_remaining w1 =? 0))
    eqn:E; cbn [fst].
  - apply andb_prop in E as [E1 E2]. apply Z.eqb_eq in E1, E2.
    assert (Hnil : World.zombies w1 = []).
    { unfold World.len in E1. destruct (World.zombies w1); [reflexivity|].
      cbn [List.length] in E1. lia. }
    unfold World._start_next_wave.
    cbn [World.map_data World.zombies World.bullets World.wave World.zombies_remaining
         World.zombies_killed WorldUpdate.set_bullets].
    split; [exact Hm|]. split; [exact Halive|]. split; [exact Hk0|].
    split; [lia|]. split; [exact Hkeep|].
    split; [rewrite Hb in Hlen; cbn [List.length] in Hlen; lia|].
    right. rewrite Hw. repeat split; try reflexivity; try assumption. congruence.
  - cbn [World.map_data World.zombies World.bullets World.wave World.zombies_remaining
         World.zombies_killed WorldUpdate.set_bullets].
    split; [exact Hm|]. split; [exact Halive|]. split; [exact Hk0|].
    split; [lia|]. split; [exact Hkeep|].
    split; [rewrite Hb in Hlen; cbn [List.length] in Hlen; lia|].
    left. split; [exact Hw|]. split; [exact Hr|].
    apply andb_false_iff in E as [E|E].
    + left. intros Hnil. rewrite Hnil in E. discriminate.
    + right. rewrite Hr in E. apply Z.eqb_neq in E. exact E.
Qed.

(** X10: whatever the actors do in their own updates, one [update] of
    the world never changes the tile map; every zombie of the list is
    afterwards either still in the list with positive health or counted
    in [zombies_killed], one count each; and no bullet stays in the list
    with [should_remove] set. *)
Theorem update_accounts_for_actors (w : World.t) (dt : float) (p : Player.t) :
  let w' := fst (WorldUpdate.update zombie_update bullet_update w dt p) in
  World.map_data w' = World.map_data w /\
  Forall Runs.alive (World.zombies w') /\
  0 <= World.zombies_killed w' - World.zombies_killed w /\
  World.len (World.zombies w') + (World.zombies_killed w' - World.zombies_killed w)
    = World.len (World.zombies w) /\
  Forall (fun b => World.should_remove b = false) (World.bullets w') /\
  (List.length (World.bullets w') <= List.length (World.bullets w))%nat.
Proof.
  destruct (update_summary w dt p) as (H1 & H2 & H3 & H4 & H5 & H6 & _).
  cbv zeta. repeat split; assumption.
Qed.

(** The zombie loop pays [POINTS_PER_KILL] per kill. *)
Lemma update_zombies_points (dt : float) :
  (forall dt p w z, Player.points (snd (zombie_update dt p w z)) = Player.points p) ->
  forall todo kept w p w' p',
    WorldUpdate.update_zombies zombie_update dt todo kept w p = (w', p') ->
    Player.points p' - Player.points p
      = POINTS_PER_KILL * (World.zombies_killed w' - World.zombies_killed w).
Proof.
  intros Hpts. induction todo as [|z rest IH]; intros kept w p w' p' H;
    cbn [WorldUpdate.update_zombies] in H.
  - injection H as <- <-. cbn [WorldUpdate.set_zombies World.zombies_killed]. lia.
  - pose proof (Hpts dt p (WorldUpdate.set_zombies w (kept ++ z :: rest)) z) as Hz.
    destruct (zombie_update dt p _ z) as [z' p1]. cbn [snd] in Hz.
    destruct (World.z_health z' <=? 0).
    + specialize (IH _ _ _ _ _ H).
      unfold Player.add_points in IH.
      cbn [Player.points Player.set_points WorldUpdate.count_kill World.zombies_killed] in IH.
      lia.
    + specialize (IH _ _ _ _ _ H). lia.
Qed.

(** X11: if the zombies' own updates leave the player's points alone,
    one [update] of the world raises the points by [POINTS_PER_KILL] for
    each zombie it counts as killed, and by nothing else. *)
Theorem update_pays_per_kill (w : World.t) (dt : float) (p : Player.t) :
  (forall dt p w z, Player.points (snd (zombie_update dt p w z)) = Player.points p) ->
  let r := WorldUpdate.update zombie_update bullet_update w dt p in
  Player.points (snd r) - Player.points p
    = POINTS_PER_KILL * (World.zombies_killed (fst r) - World.zombies_killed w).
Proof.
  intros Hpts. cbv zeta. unfold WorldUpdate.update.
  destruct (WorldUpdate.update_zombies zombie_update dt (World.zombies w) [] w p)
    as [w1 p1] eqn:Ez.
  pose proof (update_zombies_points dt Hpts _ _ _ _ _ _ Ez) as Hp.
  destruct (update_bullets_accounting dt w1 (World.bullets w1) [] (Forall_nil _))
    as (bs & Hbs & _). rewrite Hbs.
  destruct (_ && _); cbn [fst snd World._start_next_wave WorldUpdate.set_bullets
                          World.zombies_killed]; exact Hp.
Qed.

(** X12: nothing in the world consumes the spawn quota.  So along any
    run of [update] calls, from a wave number that is not negative, the
    wave advances at most once: while the quota is nonzero the wave and
    the quota stay as they are, and a new wave sets a nonzero quota. *)
Theorem wave_advances_at_most_once (dts : list float) (w : World.t) (p : Player.t) :
  0 <= World.wave w ->
  let w' := fst (Runs.world_updates zombie_update bullet_update dts w p) in
  World.wave w <= World.wave w' <= World.wave w + 1 /\
  (World.zombies_remaining w <> 0 ->
   World.wave w' = World.wave w /\
   World.zombies_remaining w' = World.zombies_remaining w).
Proof.
  assert (Hstall : forall dts w p, World.zombies_remaining w <> 0 ->
            let w' := fst (Runs.world_updates zombie_update bullet_update dts w p) in
            World.wave w' = World.wave w /\
            World.zombies_remaining w' = World.zombies_remaining w).
  { clear. induction dts as [|dt rest IH]; intros w p Hr; cbn [Runs.world_updates].
    - split; reflexivity.
    - destruct (update_summary w dt p) as (_ & _ & _ & _ & _ & _ & Hcase).
      cbv zeta in Hcase.
      destruct (WorldUpdate.update zombie_update bullet_update w dt p) as [w1 p1].
      cbn [fst] in Hcase.
      destruct Hcase as [(Hw & Hq & _) | (_ & _ & _ & H0)]; [|contradiction].
      destruct (IH w1 p1 ltac:(congruence)) as [H1 H2]. cbv zeta. split; congruence. }
  revert w p. induction dts as [|dt rest IH]; intros w p Hw0; cbn [Runs.world_updates].
  - cbv zeta. cbn [fst]. split; [lia|]. intros _. split; reflexivity.
  - cbv zeta. split; [|apply (Hstall (dt :: rest) w p)].
    destruct (update_summary w dt p) as (_ & _ & _ & _ & _ & _ & Hcase).
    cbv zeta in Hcase.
    destruct (WorldUpdate.update zombie_update bullet_update w dt p) as [w1 p1].
    cbn [fst] in Hcase.
    destruct Hcase as [(Hw & Hq & _) | (Hw & Hq & _ & _)].
    + destruct (IH w1 p1 ltac:(lia)) as [H1 _]. cbv zeta in H1. lia.
    + destruct (Hstall rest w1 p1 ltac:(lia)) as [H1 _]. cbv zeta in H1. lia.
Qed.

End Accounting.

(** X10, an instance: in [skirmish] the zombie of health 50 burns down
    and is counted, the one of health 100 stays with 40, the bullet goes. *)
Lemma update_accounts_for_actors_witness :
  let w' := fst (WorldUpdate.update Runs.burning_zombie Runs.spent_bullet
                   Runs.skirmish (1 / 60) (Player.init 192 192)) in
  World.zombies w' = [World.mkZombie 40 0] /\ World.zombies_killed w' = 1 /\
  World.bullets w' = [] /\ World.map_data w' = World.init_map.
Proof.
  cbv zeta.
  destruct (update_accounts_for_actors Runs.burning_zombie Runs.spent_bullet
              Runs.skirmish (1 / 60) (Player.init 192 192)) as (Hmap & _).
  split; [reflexivity|]. split; [reflexivity|]. split; [reflexivity | exact Hmap].
Defined.

(** X11, an instance: the kill in [skirmish] pays 50 points. *)
Lemma update_pays_per_kill_witness :
  Player.points (snd (WorldUpdate.update Runs.burning_zombie Runs.spent_bullet
                        Runs.skirmish (1 / 60) (Player.init 192 192))) = 550.
Proof.
  pose proof (update_pays_per_kill Runs.burning_zombie Runs.spent_bullet
                Runs.skirmish (1 / 60) (Player.init 192 192)
                (fun _ _ _ _ => eq_refl)) as H.
  cbv zeta in H.
  change (Player.points (Player.init 192 192)) with 500 in H.
  change (World.zombies_killed
            (fst (WorldUpdate.update Runs.burning_zombie Runs.spent_bullet
                    Runs.skirmish (1 / 60) (Player.init 192 192)))) with 1 in H.
  change (World.zombies_killed Runs.skirmish) with 0 in H.
  change POINTS_PER_KILL with 50 in H. lia.
Defined.

(** X12, an instance: from the world as built, five frames with no actor
    around: the first starts wave 2 with a quota of 12, and there the
    game stays. *)
Lemma wave_advances_at_most_once_witness :
  let dts := repeat (1 / 60)%float 5 in
  let w' := fst (Runs.world_updates Runs.idle_zombie Runs.idle_bullet dts World.init
                   (Player.init 192 192)) in
  World.wave w' <= 2 /\ World.wave w' = 2 /\ World.zombies_remaining w' = 12.
Proof.
  cbv zeta.
  destruct (wave_advances_at_most_once Runs.idle_zombie Runs.idle_bullet
              (repeat (1 / 60)%float 5) World.init (Player.init 192 192)
              ltac:(apply Z.leb_le; reflexivity)) as ((_ & Hle) & _).
  cbv zeta in Hle. split; [exact Hle|]. split; reflexivity.
Defined.

(** ** The rendered frame *)

Lemma in_ray_distances (n : nat) :
  (1 <= n <= Spec.max_steps)%nat ->
  In (Renderer.step_size * Z.of_nat n) Spec.ray_distances.
Proof.
  intros Hn. unfold Spec.ray_distances.
  apply (in_map (fun n => Renderer.step_size * Z.of_nat n)). apply in_seq. lia.
Qed.

Lemma project_height_in_range (n : nat) :
  (1 <= n <= Spec.max_steps)%nat ->
  Runs.height_ok (Renderer.step_size * Z.of_nat n) = true.
Proof.
  intros Hn.
  assert (Hall : forallb Runs.height_ok Spec.ray_distances = true)
    by (vm_compute; reflexivity).
  rewrite forallb_forall in Hall. apply Hall, in_ray_distances, Hn.
Qed.

Lemma render_column_ok (ray_index : Z) (n : nat) (wall_type : Z) :
  (1 <= n <= Spec.max_steps)%nat ->
  exists s,
    Renderer.render_column ray_index (Renderer.step_size * Z.of_nat n) wall_type = Some s /\
    Runs.strip_in_column ray_index s.
Proof.
  intros Hn.
  pose proof (shaded_channels_in_range n wall_type Hn) as Hc.
  pose proof (project_height_in_range n Hn) as Hh.
  unfold Spec.column_in_range, Renderer.render_column in *.
  destruct (Renderer.shade _ _) as [[[r g] b]|]; cbn [bind] in *; [|discriminate].
  eexists. split; [reflexivity|].
  unfold Runs.strip_in_column, Runs.height_ok in *.
  cbn [Renderer.screen_x Renderer.strip_width Renderer.wall_height Renderer.shaded_color] in *.
  split; [reflexivity|]. split; [reflexivity|]. split; [exact Hc|].
  exists n. split; [exact Hn|]. split; [reflexivity|].
  apply andb_prop in Hh. exact Hh.
Qed.

Section Frame.

Variables libm_cos libm_sin : float -> float.
Variable w : World.t.
Variable fuel : nat.
Hypothesis Hfuel : (Spec.max_steps <= fuel)%nat.

(** A ray ends within the iterations allowed, and a ray that returns
    reports a distance some whole number of steps long. *)
Lemma cast_ray_step_multiple (start_x start_y angle : float) :
  Renderer._cast_ray libm_cos libm_sin fuel w start_x start_y angle <> Unfinished /\
  forall d t,
    Renderer._cast_ray libm_cos libm_sin fuel w start_x start_y angle = Done (d, t) ->
    exists n, (1 <= n <= Spec.max_steps)%nat /\ d = Renderer.step_size * Z.of_nat n.
Proof.
  unfold Renderer._cast_ray, Renderer._cast_ray_steps.
  destruct (Math.call libm_cos angle) as [dx|]; [|split; [discriminate|discriminate]].
  destruct (Math.call libm_sin angle) as [dy|]; [|split; [discriminate|discriminate]].
  destruct (march_from w dx dy start_x start_y fuel 0 ltac:(lia) ltac:(lia))
    as (n & Hn & Hcases).
  cbn [Spec.advance Z.of_nat] in Hcases. rewrite Z.mul_0_r in Hcases.
  destruct Hcases as [(Hlt & _ & _ & t & _ & Hrun) | [(Hn' & _ & Hrun) | (_ & _ & _ & Hrun)]];
    rewrite Hrun; cbn [snd]; (split; [discriminate|]); intros d' t' H;
    try discriminate; injection H as <- <-.
  - exists n. split; [lia | reflexivity].
  - exists Spec.max_steps. split; [vm_compute; lia | reflexivity].
Qed.

Lemma render_columns_ok (player : Player.t) (start_angle : float) :
  forall todo,
    Renderer.render_columns libm_cos libm_sin fuel w player start_angle todo
      <> Unfinished /\
    ((forall i, In i todo -> exists r,
        Renderer._cast_ray libm_cos libm_sin fuel w (Player.x player) (Player.y player)
          (start_angle + Renderer.float_of_Z i * Renderer.angle_step)%float = Done r) ->
     exists strips,
       Renderer.render_columns libm_cos libm_sin fuel w player start_angle todo
         = Done strips) /\
    (forall strips,
       Renderer.render_columns libm_cos libm_sin fuel w player start_angle todo
         = Done strips ->
       Forall2 Runs.strip_in_column todo strips).
Proof.
  induction todo as [|i rest IH]; cbn [Renderer.render_columns].
  - split; [discriminate|]. split.
    + intros _. exists []. reflexivity.
    + intros strips [= <-]. constructor.
  - destruct IH as (IHend & IHall & IHok).
    destruct (cast_ray_step_multiple (Player.x player) (Player.y player)
                (start_angle + Renderer.float_of_Z i * Renderer.angle_step)%float)
      as (Hend & Hmult).
    destruct (Renderer._cast_ray _ _ _ _ _ _ _) as [[d t]| |] eqn:Er.
    + destruct (Hmult d t eq_refl) as (n & Hn & ->).
      destruct (render_column_ok i n t Hn) as (s & Hs & Hok). rewrite Hs.
      destruct (Renderer.render_columns _ _ _ _ _ _ rest) as [strips'| |].
      * split; [discriminate|]. split.
        -- intros _. eexists. reflexivity.
        -- intros strips [= <-]. constructor; [exact Hok | apply IHok; reflexivity].
      * split; [discriminate|]. split; [|intros strips H; discriminate].
        intros Hrays. destruct IHall as [strips' H'];
          [intros j Hj; apply Hrays; right; exact Hj | discriminate H'].
      * exfalso. apply IHend. reflexivity.
    + split; [discriminate|]. split; [|intros strips H; discriminate].
      intros Hrays. destruct (Hrays i (or_introl eq_refl)) as [r Hr].
      rewrite Er in Hr. discriminate Hr.
    + exfalso. apply Hend. reflexivity.
Qed.

(** X13: [render_3d_view] ends within the iterations allowed to each
    ray, and nothing but a ray can make it raise: when every ray
    returns, so does the frame, no colour conversion or lookup raising.
    A frame that returns has one strip per ray, [RAY_COUNT] = 512 of
    them; strip [i] sits at x = 2 * i and is 2 wide, so the strips tile
    the 1024 columns of the screen; each has its colour channels within
    0..255 and a height above 0 and at most the screen height. *)
Theorem render_3d_view_frame (player : Player.t) :
  let frame := Renderer.render_3d_view libm_cos libm_sin fuel w player in
  let start_angle := (Player.angle player - Renderer.half_fov)%float in
  frame <> Unfinished /\
  ((forall i, In i (Renderer.range RAY_COUNT) -> exists r,
      Renderer._cast_ray libm_cos libm_sin fuel w (Player.x player) (Player.y player)
        (start_angle + Renderer.float_of_Z i * Renderer.angle_step)%float = Done r) ->
   exists strips, frame = Done strips) /\
  (forall strips,
     frame = Done strips ->
     Forall2 Runs.strip_in_column (Renderer.range RAY_COUNT) strips /\
     List.length strips = 512%nat /\
     RAY_COUNT * 2 = SCREEN_WIDTH).
Proof.
  cbv zeta. unfold Renderer.render_3d_view.
  destruct (render_columns_ok player (Player.angle player - Renderer.half_fov)%float
              (Renderer.range RAY_COUNT)) as (Hend & Hall & Hok).
  split; [exact Hend|]. split; [exact Hall|].
  intros strips H. specialize (Hok strips H).
  split; [exact Hok|]. split; [|reflexivity].
  rewrite <- (Forall2_length Hok). reflexivity.
Qed.

End Frame.

(** X13, an instance: the first frame of the game, the player at the
    spawn point of the built-in map, with the direction of heading 0 for
    every ray. *)
Lemma render_3d_view_frame_witness :
  exists strips,
    Renderer.render_3d_view Spec.cos_east Spec.sin_east Spec.max_steps World.init
      (Player.init 192 192) = Done strips /\
    List.length strips = 512%nat.
Proof.
  destruct (render_3d_view_frame Spec.cos_east Spec.sin_east World.init
              Spec.max_steps (le_n _) (Player.init 192 192))
    as (_ & Hall & Hok).
  destruct Hall as [strips Hr].
  { intros i _. exists (1024, 1). vm_compute. reflexivity. }
  exists strips. split; [exact Hr|].
  exact (proj1 (proj2 (Hok strips Hr))).
Defined.

(** At a heading that is not a number the frame raises: the first ray
    leaves for a position that is not a number either. *)
Lemma render_3d_view_raises_at_nan :
  Renderer.render_3d_view Spec.cos_or_nan Spec.sin_or_nan Spec.max_steps World.init
    (Player.set_angle (Player.init 192 192) nan) = Raised.
Proof. vm_compute. reflexivity. Qed.

(** ** Shading and placement over the distances a ray can report *)

(** X14: among the distances a ray can report, a farther wall is never
    drawn brighter than a nearer one; the shading factor never goes
    below 0.1, and it is at 0.1 from the fifth step (20 units) on. *)
Theorem shade_darker_when_farther (n1 n2 : nat) :
  (1 <= n1 <= n2)%nat -> (n2 <= Spec.max_steps)%nat ->
  let d1 := Renderer.step_size * Z.of_nat n1 in
  let d2 := Renderer.step_size * Z.of_nat n2 in
  (Renderer.shade_factor d2 <=? Renderer.shade_factor d1)%float = true /\
  (Renderer.point_one <=? Renderer.shade_factor d1)%float = true /\
  ((5 <= n1)%nat -> (Renderer.shade_factor d1 =? Renderer.point_one)%float = true).
Proof.
  intros H1 H2 d1 d2.
  assert (Hpairs : forallb (fun a => forallb (Runs.darker_when_farther a) Spec.ray_distances)
                     Spec.ray_distances = true) by (vm_compute; reflexivity).
  assert (Hfloor : forallb (fun d => (Renderer.point_one <=? Renderer.shade_factor d)%float
                             && ((d <? 20) || (Renderer.shade_factor d =? Renderer.point_one)%float))
                     Spec.ray_distances = true) by (vm_compute; reflexivity).
  rewrite forallb_forall in Hpairs, Hfloor.
  assert (Hin1 : In d1 Spec.ray_distances) by (apply in_ray_distances; lia).
  assert (Hin2 : In d2 Spec.ray_distances) by (apply in_ray_distances; lia).
  specialize (Hpairs d1 Hin1). rewrite forallb_forall in Hpairs.
  specialize (Hpairs d2 Hin2). unfold Runs.darker_when_farther in Hpairs.
  replace (d1 <=? d2) with true in Hpairs
    by (symmetry; apply Z.leb_le; unfold d1, d2, Renderer.step_size; lia).
  specialize (Hfloor d1 Hin1). apply andb_prop in Hfloor as [Hlow Hflat].
  split; [exact Hpairs|]. split; [exact Hlow|].
  intros H5. apply orb_prop in Hflat as [Hlt|Heq]; [|exact Heq].
  apply Z.ltb_lt in Hlt. unfold d1, Renderer.step_size in Hlt. lia.
Qed.

(** X14, an instance: one step against two, and the floor at one tile. *)
Lemma shade_darker_when_farther_witness :
  (Renderer.shade_factor 8 <=? Renderer.shade_factor 4)%float = true /\
  (Renderer.shade_factor 64 =? Renderer.point_one)%float = true.
Proof.
  destruct (shade_darker_when_farther 1 2 ltac:(lia) ltac:(vm_compute; lia)) as (H & _).
  destruct (shade_darker_when_farther 16 16 ltac:(lia) ltac:(vm_compute; lia))
    as (_ & _ & Hflat).
  split; [exact H | apply Hflat; lia].
Defined.

(** X15: for every distance a ray can report, the wall strip lies on
    the screen: its top is at or below the top edge, its bottom at or
    above the bottom edge and not above its top, and its height is
    positive, so the wall band is always drawn. *)
Theorem strip_stays_on_screen (n : nat) :
  (1 <= n <= Spec.max_steps)%nat ->
  let d := Renderer.step_size * Z.of_nat n in
  (0 <=? Geometry.wall_top d)%float = true /\
  (Geometry.wall_bottom d <=? Renderer.float_of_Z SCREEN_HEIGHT)%float = true /\
  (Geometry.wall_top d <=? Geometry.wall_bottom d)%float = true /\
  Geometry.draws_wall d = true.
Proof.
  intros Hn d.
  assert (Hall : forallb Runs.placement_ok Spec.ray_distances = true)
    by (vm_compute; reflexivity).
  rewrite forallb_forall in Hall.
  specialize (Hall d (in_ray_distances n Hn)). unfold Runs.placement_ok in Hall.
  apply andb_prop in Hall as [Hall H4]. apply andb_prop in Hall as [Hall H3].
  apply andb_prop in Hall as [H1 H2]. repeat split; assumption.
Qed.

(** X15, an instance: a wall 1024 away is drawn from row 360 to row 408. *)
Lemma strip_stays_on_screen_witness :
  Geometry.wall_top 1024 = 360%float /\ Geometry.wall_bottom 1024 = 408%float /\
  (0 <=? Geometry.wall_top 1024)%float = true.
Proof.
  destruct (strip_stays_on_screen 256 ltac:(vm_compute; lia)) as (H & _).
  split; [reflexivity|]. split; [reflexivity | exact H].
Defined.

(** ** Health bar *)

(** X16: the health bar's fill cannot be computed when [max_health] is
    0 (the division raises); with the maximum of 100 the game uses and a
    health from 0 to 100, its width lies within 0..198, inside the 200
    wide background, and the fill is drawn exactly when the health is
    above 0. *)
Theorem health_bar_fits (p : Player.t) :
  (Player.max_health p = 0 -> HUD.health_fill p = None) /\
  (Player.max_health p = PLAYER_MAX_HEALTH ->
   0 <= Player.health p <= PLAYER_MAX_HEALTH ->
   exists width,
     HUD.health_width p = Some width /\ 0 <= width <= 198 /\
     (0 < width <-> 0 < Player.health p) /\
     HUD.health_fill p =
       Some (if Player.health p >? 0 then Some (width, HUD.health_color p) else None)).
Proof.
  split.
  - intros H. unfold HUD.health_fill, HUD.health_width. rewrite H. reflexivity.
  - intros Hmax Hh.
    assert (Hall : forallb Runs.health_bar_ok (map Z.of_nat (seq 0 101)) = true)
      by (vm_compute; reflexivity).
    rewrite forallb_forall in Hall.
    assert (Hin : In (Player.health p) (map Z.of_nat (seq 0 101))).
    { replace (Player.health p) with (Z.of_nat (Z.to_nat (Player.health p)))
        by (apply Z2Nat.id; lia).
      apply in_map, in_seq. change PLAYER_MAX_HEALTH with 100 in Hh. lia. }
    specialize (Hall _ Hin). unfold Runs.health_bar_ok in Hall.
    assert (Hsame : HUD.health_width p = HUD.health_width (Runs.with_health (Player.health p))).
    { unfold HUD.health_width, Runs.with_health.
      cbn [Player.health Player.max_health Player.set_health Player.init].
      rewrite Hmax. reflexivity. }
    unfold HUD.health_fill. rewrite Hsame.
    destruct (HUD.health_width (Runs.with_health (Player.health p))) as [width|];
      [|discriminate].
    apply andb_prop in Hall as [Hall Hiff]. apply andb_prop in Hall as [H0 H198].
    apply Z.leb_le in H0, H198. apply Bool.eqb_prop in Hiff.
    exists width. split; [reflexivity|]. split; [lia|]. split.
    + rewrite <- !Z.gtb_lt, Hiff. reflexivity.
    + cbn [bind]. rewrite Hiff. reflexivity.
Qed.

(** X16, an instance: a player at 31 health has a yellow fill 61 wide. *)
Lemma health_bar_fits_witness :
  HUD.health_fill (Runs.with_health 31) = Some (Some (61, YELLOW)).
Proof.
  destruct (health_bar_fits (Runs.with_health 31)) as [_ H].
  destruct (H eq_refl ltac:(vm_compute; split; discriminate)) as (width & Hw & _ & _ & Hf).
  rewrite Hf. vm_compute in Hw. injection Hw as <-. reflexivity.
Defined.

(** ** Game engine *)

(** X17: the held keys behave as a set: after [handle_key_down] the key
    is held and after [handle_key_up] it is not, however often it was
    pressed before; the other keys are not affected; releasing a key
    that is not held is harmless. *)
Theorem held_keys_form_a_set (e : GameEngine.t) (key other : Z) :
  GameEngine.pressed (GameEngine.handle_key_down e key) other
    = (other =? key) || GameEngine.pressed e other /\
  GameEngine.pressed (GameEngine.handle_key_up e key) other
    = negb (other =? key) && GameEngine.pressed e other /\
  GameEngine.pressed
    (GameEngine.handle_key_up
       (GameEngine.handle_key_down (GameEngine.handle_key_down e key) key) key) key = false.
Proof.
  assert (Hdown : forall e key other,
            GameEngine.pressed (GameEngine.handle_key_down e key) other
            = (other =? key) || GameEngine.pressed e other).
  { clear. intros e key other. unfold GameEngine.handle_key_down.
    destruct (GameEngine.pressed e key) eqn:E.
    - destruct (other =? key) eqn:Eo; [|reflexivity].
      apply Z.eqb_eq in Eo. subst other. rewrite E. reflexivity.
    - unfold GameEngine.pressed. cbn [GameEngine.keys_pressed GameEngine.set_keys existsb].
      reflexivity. }
  assert (Hup : forall e key other,
            GameEngine.pressed (GameEngine.handle_key_up e key) other
            = negb (other =? key) && GameEngine.pressed e other).
  { clear. intros e key other. unfold GameEngine.handle_key_up, GameEngine.pressed.
    cbn [GameEngine.keys_pressed GameEngine.set_keys].
    induction (GameEngine.keys_pressed e) as [|k ks IH]; cbn [filter existsb].
    - rewrite andb_false_r. reflexivity.
    - destruct (k =? key) eqn:Ek; cbn [negb existsb].
      + apply Z.eqb_eq in Ek. subst k. rewrite IH.
        destruct (other =? key); reflexivity.
      + rewrite IH. destruct (other =? k) eqn:Eo; [|reflexivity].
        apply Z.eqb_eq in Eo. subst other. rewrite Ek. reflexivity. }
  split; [apply Hdown|]. split; [apply Hup|].
  rewrite Hup, Z.eqb_refl. reflexivity.
Qed.

Lemma is_wall_same_map (w w' : World.t) (x y : float) :
  World.map_data w' = World.map_data w -> World.is_wall_at w' x y = World.is_wall_at w x y.
Proof.
  intros H. unfold World.is_wall_at, World.is_wall, World.out_of_bounds, World.tile.
  rewrite H. reflexivity.
Qed.

(** A finite binary64 value is a zero or a signed mantissa with an
    exponent. *)
Lemma finite_cases (c : float) :
  is_finite c = true ->
  (exists s, Prim2SF c = S754_zero s) \/ (exists s m e, Prim2SF c = S754_finite s m e).
Proof.
  unfold is_finite, is_nan, is_infinity.
  rewrite !FloatAxioms.eqb_spec, FloatAxioms.abs_spec.
  change (Prim2SF infinity) with (S754_infinity false).
  destruct (Prim2SF c) as [s|s| |s m e]; intros H.
  - left. exists s. reflexivity.
  - exfalso. cbn in H. rewrite orb_true_r in H. discriminate.
  - exfalso. cbn in H. discriminate.
  - right. exists s, m, e. reflexivity.
Qed.

(** Adding a finite value to zero and taking it off again leaves a
    zero: no rounding is involved. *)
Lemma add_sub_cancel (c : float) :
  is_finite c = true -> ((0 + c) - c =? 0)%float = true.
Proof.
  intros H.
  rewrite FloatAxioms.eqb_spec, FloatAxioms.sub_spec, FloatAxioms.add_spec.
  change (Prim2SF 0) with (S754_zero false).
  destruct (finite_cases c H) as [[s ->] | (s & m & e & ->)].
  - destruct s; reflexivity.
  - change (SF64add (S754_zero false) (S754_finite s m e)) with (S754_finite s m e).
    unfold SF64sub, SFsub. rewrite Z.sub_diag. reflexivity.
Qed.

(** What [math] returns for a finite argument is finite. *)
Lemma call_finite (f : float -> float) (x r : float) :
  is_finite x = true -> Math.call f x = Some r -> is_finite r = true.
Proof.
  intros Hx. unfold Math.call. cbv zeta. rewrite Hx.
  assert (Hn : is_nan x = false).
  { unfold is_finite in Hx. destruct (is_nan x); [discriminate | reflexivity]. }
  rewrite Hn. cbn [negb]. rewrite !andb_true_r.
  destruct (is_nan (f x)) eqn:E1; [discriminate|].
  destruct (is_infinity (f x)) eqn:E2; [discriminate|].
  intros [= <-]. unfold is_finite. rewrite E1, E2. reflexivity.
Qed.

Section EngineFrames.

Variables libm_cos libm_sin : float -> float.
Variable zombie_update : float -> Player.t -> World.t -> World.Zombie -> World.Zombie * Player.t.
Variable bullet_update : float -> World.t -> World.Bullet -> World.Bullet.

(** With no zombie around, the world's update hands the player back. *)
Lemma world_update_without_zombies (w : World.t) (dt : float) (p : Player.t) :
  World.zombies w = [] ->
  snd (WorldUpdate.update zombie_update bullet_update w dt p) = p /\
  World.map_data (fst (WorldUpdate.update zombie_update bullet_update w dt p))
    = World.map_data w.
Proof.
  intros Hz. unfold WorldUpdate.update. rewrite Hz. cbn [WorldUpdate.update_zombies].
  destruct (update_bullets_frame bullet_update dt (WorldUpdate.set_zombies w [])
              (World.bullets (WorldUpdate.set_zombies w [])) []) as [bs ->].
  destruct (_ && _); split; reflexivity.
Qed.

(** X18: with forward and back both held, or neither, and no strafe key
    held, the movement vector is zero at every finite heading where
    [math.cos] and [math.sin] return: the cosine is added and taken off
    again, which on binary64 leaves a zero.  The frame then skips the
    normalisation (so it cannot divide by zero) and, with no zombie
    around, leaves the player exactly where and as it was.  With neither
    key held this holds at any heading. *)
Theorem opposite_keys_cancel (e : GameEngine.t) (dt : float) (c s : float) :
  GameEngine.pressed e GameEngine.K_w = GameEngine.pressed e GameEngine.K_s ->
  GameEngine.pressed e GameEngine.K_a = false ->
  GameEngine.pressed e GameEngine.K_d = false ->
  World.zombies (GameEngine.world e) = [] ->
  (GameEngine.pressed e GameEngine.K_w = true ->
   is_finite (Player.angle (GameEngine.player e)) = true /\
   Math.call libm_cos (Player.angle (GameEngine.player e)) = Some c /\
   Math.call libm_sin (Player.angle (GameEngine.player e)) = Some s) ->
  exists e' m,
    GameEngine.movement_input libm_cos libm_sin e = Some m /\
    (fst m =? 0)%float = true /\ (snd m =? 0)%float = true /\
    GameEngine.normalize m = Some m /\
    GameEngine._update_playing libm_cos libm_sin zombie_update bullet_update e dt
      = Some e' /\
    GameEngine.player e' = GameEngine.player e /\
    GameEngine.keys_pressed e' = GameEngine.keys_pressed e.
Proof.
  intros Hws Ha Hd Hz Hheld.
  assert (Hm : exists m,
             GameEngine.movement_input libm_cos libm_sin e = Some m /\
             (fst m =? 0)%float = true /\ (snd m =? 0)%float = true).
  { unfold GameEngine.movement_input. rewrite Ha, Hd, <- Hws.
    destruct (GameEngine.pressed e GameEngine.K_w).
    - destruct (Hheld eq_refl) as (Hfin & Hc & Hs).
      cbv beta iota zeta delta [GameEngine.steer].
      rewrite Hc, Hs. cbn [bind].
      eexists. split; [reflexivity|]. cbn [fst snd].
      split; apply add_sub_cancel; eapply call_finite; eassumption.
    - cbn [GameEngine.steer bind]. eexists. split; [reflexivity|]. split; reflexivity. }
  destruct Hm as ([mx my] & Hm & Hx & Hy). cbn [fst snd] in Hx, Hy.
  assert (Hn : GameEngine.normalize (mx, my) = Some (mx, my)).
  { unfold GameEngine.normalize, Player.nonzero. rewrite Hx, Hy. reflexivity. }
  unfold GameEngine._update_playing. rewrite Hm. cbn [bind]. rewrite Hn. cbn [bind].
  unfold Player.update, Player.nonzero. rewrite Hx, Hy. cbn [negb orb bind].
  destruct (world_update_without_zombies (GameEngine.world e) dt (GameEngine.player e) Hz)
    as [Hp _].
  destruct (WorldUpdate.update zombie_update bullet_update _ dt _) as [w2 p2].
  cbn [snd] in Hp. subst p2.
  eexists. exists (mx, my). split; [reflexivity|].
  split; [exact Hx|]. split; [exact Hy|]. split; [exact Hn|].
  split; [reflexivity|]. split; reflexivity.
Qed.

(** X19: on a rectangular map with no zombie around, a frame that
    completes leaves a player who stood on an open tile on an open tile
    of the same, unchanged map: the movement keys never take the player
    into a wall. *)
Theorem frame_keeps_player_on_open_tile (e e' : GameEngine.t) (dt : float) :
  Spec.well_formed (GameEngine.world e) = true ->
  Runs.on_open_tile (GameEngine.world e) (GameEngine.player e) ->
  World.zombies (GameEngine.world e) = [] ->
  GameEngine._update_playing libm_cos libm_sin zombie_update bullet_update e dt
    = Some e' ->
  Runs.on_open_tile (GameEngine.world e') (GameEngine.player e') /\
  World.map_data (GameEngine.world e') = World.map_data (GameEngine.world e) /\
  Spec.well_formed (GameEngine.world e') = true.
Proof.
  intros Hwf Hopen Hz H. unfold GameEngine._update_playing in H.
  destruct (GameEngine.movement_input _ _ _) as [m|]; cbn [bind] in H; [|discriminate].
  destruct (GameEngine.normalize m) as [[mx my]|]; cbn [bind] in H; [|discriminate].
  destruct (Player.update (GameEngine.player e) dt mx my (GameEngine.world e))
    as [p1|] eqn:Hup; cbn [bind] in H; [|discriminate].
  destruct (update_stays_open _ _ _ _ _ _ Hopen Hup) as (Hopen1 & _).
  destruct (world_update_without_zombies (GameEngine.world e) dt p1 Hz) as [Hp Hm].
  destruct (WorldUpdate.update zombie_update bullet_update _ dt p1) as [w2 p2].
  cbn [fst snd] in Hp, Hm. subst p2. injection H as <-.
  cbn [GameEngine.world GameEngine.player].
  split; [|split; [exact Hm|]].
  - unfold Runs.on_open_tile in *. rewrite (is_wall_same_map _ _ _ _ Hm). exact Hopen1.
  - unfold Spec.well_formed in *. rewrite Hm. exact Hwf.
Qed.

End EngineFrames.

(** X18, an instance: the engine as built, W and S held together. *)
Lemma opposite_keys_cancel_witness :
  exists e',
    GameEngine._update_playing Spec.cos_east Spec.sin_east
      Runs.idle_zombie Runs.idle_bullet Runs.engine_w_s (1 / 60) = Some e' /\
    GameEngine.player e' = GameEngine.player Runs.engine_w_s.
Proof.
  destruct (opposite_keys_cancel Spec.cos_east Spec.sin_east
              Runs.idle_zombie Runs.idle_bullet Runs.engine_w_s (1 / 60) 1 0
              eq_refl eq_refl eq_refl eq_refl
              (fun _ => conj eq_refl (conj eq_refl eq_refl)))
    as (e' & m & _ & _ & _ & _ & He & Hp & _).
  exists e'. split; [exact He | exact Hp].
Defined.

(** At a heading that is not a number, W and S held together do not
    cancel: nan - nan is nan, the vector is normalised to nan, and the
    frame raises in [is_wall]. *)
Lemma opposite_keys_at_nan_heading :
  let e := GameEngine.set_player Runs.engine_w_s
             (Player.set_angle (GameEngine.player Runs.engine_w_s) nan) in
  option_map (fun m => (fst m =? 0)%float)
    (GameEngine.movement_input Spec.cos_or_nan Spec.sin_or_nan e) = Some false /\
  GameEngine._update_playing Spec.cos_or_nan Spec.sin_or_nan
    Runs.idle_zombie Runs.idle_bullet e (1 / 60) = None.
Proof. cbv zeta. split; vm_compute; reflexivity. Qed.

(** X19, an instance: the engine as built, W held: the player runs east
    from the spawn point for one frame. *)
Lemma frame_keeps_player_on_open_tile_witness :
  exists e',
    GameEngine._update_playing Spec.cos_east Spec.sin_east
      Runs.idle_zombie Runs.idle_bullet Runs.engine_w (1 / 60) = Some e' /\
    (192 <? Player.x (GameEngine.player e'))%float = true /\
    Runs.on_open_tile (GameEngine.world e') (GameEngine.player e').
Proof.
  eexists. split; [vm_compute; reflexivity|]. split; [reflexivity|].
  eapply (frame_keeps_player_on_open_tile Spec.cos_east Spec.sin_east
            Runs.idle_zombie Runs.idle_bullet Runs.engine_w _ (1 / 60)
            eq_refl eq_refl eq_refl).
  vm_compute. reflexivity.
Defined.

(** ** Main loop *)

Lemma kept_by_loop_trans (e0 e1 e2 : GameEngine.t) :
  Runs.kept_by_loop e0 e1 -> Runs.kept_by_loop e1 e2 -> Runs.kept_by_loop e0 e2.
Proof.
  unfold Runs.kept_by_loop.
  intros (A1 & A2 & A3 & A4 & A5 & A6 & A7) (B1 & B2 & B3 & B4 & B5 & B6 & B7).
  repeat split; try congruence; try assumption; lia.
Qed.

Lemma kept_by_loop_refl (e : GameEngine.t) :
  World.zombies (GameEngine.world e) = [] ->
  Runs.on_open_tile (GameEngine.world e) (GameEngine.player e) ->
  0 <= Player.ammo (GameEngine.player e) ->
  Runs.kept_by_loop e e.
Proof. intros Hz Ho Ha. unfold Runs.kept_by_loop. repeat split; try assumption; lia. Qed.

Section LoopInvariant.

Variables libm_cos libm_sin : float -> float.
Variable zombie_update : float -> Player.t -> World.t -> World.Zombie -> World.Zombie * Player.t.
Variable bullet_update : float -> World.t -> World.Bullet -> World.Bullet.
Variable fuel : nat.

Variable e0 : GameEngine.t.

Lemma click_keeps (e : GameEngine.t) (button : Z) :
  Runs.kept_by_loop e0 e -> Runs.kept_by_loop e0 (GameEngine.handle_mouse_click e button).
Proof.
  unfold Runs.kept_by_loop, Runs.on_open_tile, GameEngine.handle_mouse_click.
  intros (A1 & A2 & A3 & A4 & A5 & A6 & A7).
  destruct (button =? 1); [|repeat split; try assumption; lia].
  unfold Player.shoot. destruct (Player.ammo (GameEngine.player e) >? 0) eqn:E;
    cbn [fst GameEngine.world GameEngine.player GameEngine.set_player
         Player.x Player.y Player.health Player.points Player.max_ammo Player.ammo
         Player.set_ammo];
    repeat split; try assumption; try lia.
Qed.

Lemma motion_keeps (e e1 : GameEngine.t) (rel : Z * Z) :
  Runs.kept_by_loop e0 e ->
  GameEngine.handle_mouse_motion fuel e rel = Some e1 ->
  Runs.kept_by_loop e0 e1.
Proof.
  unfold GameEngine.handle_mouse_motion. intros Hk H.
  destruct (String.eqb _ _); [|injection H as <-; exact Hk].
  destruct rel as [dx dy].
  destruct (Player.rotate fuel _ _) as [p|] eqn:Er; cbn [bind] in H; [|discriminate].
  injection H as <-. destruct (wrap_loops_frame _ _ _ _ Er) as (a & -> & _).
  unfold Runs.kept_by_loop, Runs.on_open_tile in *.
  cbn [GameEngine.world GameEngine.player GameEngine.set_player
       Player.x Player.y Player.health Player.points Player.max_ammo Player.ammo
       Player.set_angle]. exact Hk.
Qed.

Lemma events_keep :
  forall events e running e1 running1,
    Runs.kept_by_loop e0 e ->
    GameLoop.handle_events fuel events e running = Some (e1, running1) ->
    Runs.kept_by_loop e0 e1.
Proof.
  induction events as [|ev rest IH]; intros e running e1 running1 Hk H;
    cbn [GameLoop.handle_events] in H.
  - injection H as <- _. exact Hk.
  - destruct ev as [|key|key|button|rel|].
    + eapply IH; eassumption.
    + destruct (key =? GameLoop.K_ESCAPE); [eapply IH; eassumption|].
      eapply IH; [|exact H].
      unfold GameEngine.handle_key_down. destruct (GameEngine.pressed e key); exact Hk.
    + eapply IH; [|exact H]. exact Hk.
    + eapply IH; [|exact H]. apply click_keeps. exact Hk.
    + destruct (GameEngine.handle_mouse_motion fuel e rel) as [e'|] eqn:Em;
        cbn [bind] in H; [|discriminate].
      eapply IH; [|exact H]. eapply motion_keeps; eassumption.
    + eapply IH; eassumption.
Qed.

Lemma update_keeps (e e2 : GameEngine.t) (dt : float) :
  Runs.kept_by_loop e0 e ->
  GameEngine.update libm_cos libm_sin zombie_update bullet_update e dt = Some e2 ->
  Runs.kept_by_loop e0 e2.
Proof.
  unfold GameEngine.update. intros Hk H.
  destruct (String.eqb _ _); [|injection H as <-; exact Hk].
  unfold GameEngine._update_playing in H.
  destruct (GameEngine.movement_input _ _ _) as [m|]; cbn [bind] in H; [|discriminate].
  destruct (GameEngine.normalize m) as [[mx my]|]; cbn [bind] in H; [|discriminate].
  destruct Hk as (A1 & A2 & A3 & A4 & A5 & A6 & A7).
  destruct (Player.update (GameEngine.player e) dt mx my (GameEngine.world e))
    as [p1|] eqn:Hup; cbn [bind] in H; [|discriminate].
  destruct (update_stays_open _ _ _ _ _ _ A3 Hup) as (Hopen1 & _).
  destruct (update_moves_only _ _ _ _ _ _ Hup) as (x' & y' & Hp1).
  destruct (update_summary zombie_update bullet_update (GameEngine.world e) dt p1)
    as (Hm & _ & Hk0 & Hcount & _).
  destruct (world_update_without_zombies zombie_update bullet_update
              (GameEngine.world e) dt p1 A2) as [Hp _].
  cbv zeta in Hm, Hk0, Hcount.
  destruct (WorldUpdate.update zombie_update bullet_update _ dt p1) as [w2 p2].
  cbn [fst snd] in *. subst p2. injection H as <-.
  unfold Runs.kept_by_loop, Runs.on_open_tile in *.
  cbn [GameEngine.world GameEngine.player].
  split; [congruence|]. split.
  { rewrite A2 in Hcount. unfold World.len in Hcount. cbn [List.length] in Hcount.
    destruct (World.zombies w2); [reflexivity|]. cbn [List.length] in Hcount. lia. }
  split; [rewrite (is_wall_same_map _ _ _ _ Hm); exact Hopen1|].
  rewrite Hp1.
  cbn [Player.health Player.points Player.max_ammo Player.ammo Player.set_x Player.set_y].
  repeat split; try assumption; lia.
Qed.

(** X20: as the game stands, whatever the keys, clicks, mouse moves and
    time deltas, the main loop keeps the tile map and the zombie-free
    world it started with, keeps the player on an open tile, and leaves
    health and points untouched; the round counter only goes down, never
    below 0, because no event reloads. *)
Theorem main_loop_keeps (passes : list (float * list GameLoop.Event)) (e' : GameEngine.t) :
  World.zombies (GameEngine.world e0) = [] ->
  Runs.on_open_tile (GameEngine.world e0) (GameEngine.player e0) ->
  0 <= Player.ammo (GameEngine.player e0) ->
  GameLoop.main_loop libm_cos libm_sin zombie_update bullet_update fuel passes e0
    = Some e' ->
  Runs.kept_by_loop e0 e'.
Proof.
  intros Hz Ho Ha.
  assert (Hgen : forall passes e, Runs.kept_by_loop e0 e ->
            GameLoop.main_loop libm_cos libm_sin zombie_update bullet_update
              fuel passes e = Some e' -> Runs.kept_by_loop e0 e').
  { clear passes. induction passes as [|[dt events] rest IH]; intros e Hk H;
      cbn [GameLoop.main_loop] in H.
    - injection H as <-. exact Hk.
    - unfold GameLoop.pass in H.
      destruct (GameLoop.handle_events fuel events e true) as [[e1 running]|] eqn:Ee;
        cbn [bind] in H; [|discriminate].
      pose proof (events_keep _ _ _ _ _ Hk Ee) as Hk1.
      destruct (GameEngine.update _ _ _ _ e1 dt) as [e2|] eqn:Eu;
        cbn [bind] in H; [|discriminate].
      pose proof (update_keeps _ _ _ Hk1 Eu) as Hk2.
      destruct running; [exact (IH _ Hk2 H)|]. injection H as <-. exact Hk2. }
  apply Hgen. apply kept_by_loop_refl; assumption.
Qed.

End LoopInvariant.

(** X20, an instance: [session] played from the engine as built; the
    click after the escape key is never handled, so two rounds are gone. *)
Lemma main_loop_keeps_witness :
  exists e',
    GameLoop.main_loop Spec.cos_east Spec.sin_east
      Runs.idle_zombie Runs.idle_bullet 1 Runs.session GameEngine.init = Some e' /\
    Player.ammo (GameEngine.player e') = 6 /\
    Runs.kept_by_loop GameEngine.init e'.
Proof.
  eexists. split; [vm_compute; reflexivity|]. split; [reflexivity|].
  apply (main_loop_keeps Spec.cos_east Spec.sin_east
           Runs.idle_zombie Runs.idle_bullet 1 GameEngine.init Runs.session _
           eq_refl eq_refl ltac:(apply Z.leb_le; reflexivity)).
  vm_compute. reflexivity.
Defined.

(** X2, an instance: the test script's reload after ten pulls of the
    trigger. *)
Lemma reload_spec_witness :
  Player.ammo (Player.reload (fst (Runs.shoot_times 10 (Player.init 0 0)))) = 8.
Proof.
  destruct (reload_spec (Player.init 0 0) 10) as (_ & _ & _ & _ & H).
  apply H. split; apply Z.leb_le; reflexivity.
Defined.
